(** * Simple Task Manager (SQLite): a shallow embedding and its properties

    The program is a single Python file that keeps a [tasks] table in the
    SQLite file [tasks.db] and drives it from an interactive menu.  The
    embedding has three layers:

    - [Py]: the pieces of the Python runtime the program relies on:
      [str.strip], [int], [datetime.strptime] with the format
      ['%Y-%m-%d'], truthiness, and the exceptions that escape the
      program's handlers;
    - [Sqlite]: the content of the database file, the five SQL statements
      the program issues, parameter binding, and connections with their
      commit and close;
    - the functions of the program, under their names in the source:
      [create_table], [add_task], [view_tasks], [complete_task],
      [delete_task], [get_valid_date_input], [get_valid_task_id_input].

    A storage function maps the content of the file to an [effect]: the
    content it leaves, the lines it prints, and what it returns or raises.
    A prompt maps the lines waiting on standard input to an [io].

    Strings are sequences of code points below 256 ([Ascii.ascii]). *)

From Stdlib Require Import ZArith NArith String Ascii List Lia Bool.
From stdpp Require Import base tactics option list sorting pretty.
Import ListNotations.

Local Open Scope string_scope.
Local Open Scope list_scope.
Local Open Scope Z_scope.

(** ** The Python runtime *)

Module Py.

(** Exceptions that escape the program's handlers. *)
Inductive exception : Type :=
| OverflowError
| EOFError.

(** Values a function of the program hands back to its caller. *)
Inductive value : Type :=
| None_
| Int (n : Z)
| Str (s : string).

Inductive outcome (A : Type) : Type :=
| Returns (v : A)
| Raises (e : exception).
Arguments Returns {A} v.
Arguments Raises {A} e.

Definition code (c : ascii) : N := N_of_ascii c.

(** [str.isspace] on the code points below 256. *)
Definition isspace (c : ascii) : bool :=
  let n := code c in
  ((9 <=? n) && (n <=? 13) || (28 <=? n) && (n <=? 32)
   || (n =? 133) || (n =? 160))%N.

Definition isdigit (c : ascii) : bool :=
  let n := code c in ((48 <=? n) && (n <=? 57))%N.

Definition digit_value (c : ascii) : Z := Z.of_N (code c) - 48.

Definition is_empty (s : string) : bool :=
  match s with EmptyString => true | String _ _ => false end.

Fixpoint lstrip (s : string) : string :=
  match s with
  | EmptyString => EmptyString
  | String c r => if isspace c then lstrip r else s
  end.

Fixpoint rstrip (s : string) : string :=
  match s with
  | EmptyString => EmptyString
  | String c r =>
      let r' := rstrip r in
      if isspace c && is_empty r' then EmptyString else String c r'
  end.

(** [s.strip()] *)
Definition strip (s : string) : string := rstrip (lstrip s).

(** *** [int(s)] for a string argument, base 10 *)

(** Digits with single underscores between them: no leading, trailing or
    doubled underscore, at least one digit.  [prev] tells whether the
    previous position forbids an underscore here. *)
Fixpoint int_digits (prev : bool) (s : string) (acc : list Z)
  : option (list Z) :=
  match s with
  | EmptyString => if prev then None else Some (rev acc)
  | String c r =>
      if Ascii.eqb c "_" then
        if prev then None else int_digits true r acc
      else if isdigit c then int_digits false r (digit_value c :: acc)
      else None
  end.

Definition int_value (ds : list Z) : Z :=
  fold_left (fun a d => 10 * a + d) ds 0.

(** [sys.get_int_max_str_digits()], at its default. *)
Definition int_max_str_digits : nat := 4300.

(** [int(s)]: [None] stands for [ValueError]. *)
Definition int (s : string) : option Z :=
  let s := strip s in
  let '(neg, body) :=
    match s with
    | String "-" r => (true, r)
    | String "+" r => (false, r)
    | _ => (false, s)
    end in
  match int_digits true body [] with
  | None => None
  | Some ds =>
      if (int_max_str_digits <? length ds)%nat then None
      else Some (if neg then - int_value ds else int_value ds)
  end.

(** *** [datetime.strptime(s, '%Y-%m-%d')]

    The format is compiled to the regular expression
    [(\d\d\d\d)-(1[0-2]|0[1-9]|[1-9])-(3[0-1]|[1-2]\d|0[1-9]|[1-9]| [1-9])],
    matched at the start of the string with alternatives tried in order;
    the match must then cover the whole string, and the three numbers
    must form a date the [datetime] constructor accepts. *)

Definition in_range (lo hi : ascii) (c : ascii) : bool :=
  ((code lo <=? code c) && (code c <=? code hi))%N.

(** Each matcher lists the ways its group can match a prefix, in the
    order the regular expression tries them: the number read and the
    remaining string. *)
Definition match_Y (s : string) : list (Z * string) :=
  match s with
  | String a (String b (String c (String d r))) =>
      if isdigit a && isdigit b && isdigit c && isdigit d
      then [(1000 * digit_value a + 100 * digit_value b
             + 10 * digit_value c + digit_value d, r)]
      else []
  | _ => []
  end.

Definition match_lit (l : ascii) (s : string) : list string :=
  match s with
  | String c r => if Ascii.eqb c l then [r] else []
  | EmptyString => []
  end.

Definition alt2 (p1 p2 : ascii -> bool) (f : ascii -> ascii -> Z)
    (s : string) : list (Z * string) :=
  match s with
  | String a (String b r) => if p1 a && p2 b then [(f a b, r)] else []
  | _ => []
  end.

Definition alt1 (p : ascii -> bool) (s : string) : list (Z * string) :=
  match s with
  | String a r => if p a then [(digit_value a, r)] else []
  | EmptyString => []
  end.

Definition two_digits (a b : ascii) : Z := 10 * digit_value a + digit_value b.

Definition match_m (s : string) : list (Z * string) :=
  alt2 (Ascii.eqb "1") (in_range "0" "2") two_digits s
  ++ alt2 (Ascii.eqb "0") (in_range "1" "9") two_digits s
  ++ alt1 (in_range "1" "9") s.

Definition match_d (s : string) : list (Z * string) :=
  alt2 (Ascii.eqb "3") (in_range "0" "1") two_digits s
  ++ alt2 (in_range "1" "2") isdigit two_digits s
  ++ alt2 (Ascii.eqb "0") (in_range "1" "9") two_digits s
  ++ alt1 (in_range "1" "9") s
  ++ alt2 (Ascii.eqb " ") (in_range "1" "9") (fun _ b => digit_value b) s.

(** All matches of the whole expression at the start of [s], in
    backtracking order. *)
Definition match_Ymd (s : string) : list (Z * Z * Z * string) :=
  '(y, r1) ← match_Y s;
  r2 ← match_lit "-" r1;
  '(m, r3) ← match_m r2;
  r4 ← match_lit "-" r3;
  '(d, r5) ← match_d r4;
  [(y, m, d, r5)].

Definition is_leap (y : Z) : bool :=
  (y mod 4 =? 0) && (negb (y mod 100 =? 0) || (y mod 400 =? 0)).

Definition days_in_month (y m : Z) : Z :=
  if m =? 2 then (if is_leap y then 29 else 28)
  else if (m =? 4) || (m =? 6) || (m =? 9) || (m =? 11) then 30
  else 31.

(** The check of the [datetime] constructor. *)
Definition valid_date (y m d : Z) : bool :=
  (1 <=? y) && (y <=? 9999) && (1 <=? m) && (m <=? 12)
  && (1 <=? d) && (d <=? days_in_month y m).

(** [datetime.strptime(s, '%Y-%m-%d')]: [None] stands for [ValueError]. *)
Definition strptime_Ymd (s : string) : option (Z * Z * Z) :=
  match match_Ymd s with
  | [] => None
  | (y, m, d, rest) :: _ =>
      if is_empty rest then
        if valid_date y m d then Some (y, m, d) else None
      else None
  end.

(** Truthiness of an optional string: [None] and the empty string are
    false. *)
Definition truthy (o : option string) : bool :=
  match o with
  | None => false
  | Some s => negb (is_empty s)
  end.

End Py.


(** ** The database file *)

Module Sqlite.

(** Largest value of a 64-bit signed INTEGER, which is also the largest
    rowid, and the smallest one. *)
Definition MAX_ROWID : Z := 9223372036854775807.
Definition MIN_INT64 : Z := -9223372036854775808.

(** A row of [tasks].  [id] is the INTEGER PRIMARY KEY (the rowid),
    [description] is TEXT NOT NULL, [due_date] is TEXT and may be NULL,
    [completed] is INTEGER and, as the schema is written, may be NULL. *)
Record task : Type := mk_task {
  id : Z;
  description : string;
  due_date : option string;
  completed : option Z
}.

(** The table in rowid order, with the entry that AUTOINCREMENT keeps
    for it in [sqlite_sequence] (0 while there is none). *)
Record tasks_table : Type := mk_table {
  rows : list task;
  seq : Z
}.

(** The file [tasks.db]: [None] while the table has not been created. *)
Definition database : Type := option tasks_table.

(** [sqlite3.Error] and what [str(e)] shows. *)
Inductive error : Type :=
| NoSuchTable
| DatabaseFull.

Definition errmsg (e : error) : string :=
  match e with
  | NoSuchTable => "no such table: tasks"
  | DatabaseFull => "database or disk is full"
  end.

Inductive result (A : Type) : Type :=
| Ok (a : A)
| Err (e : error).
Arguments Ok {A} a.
Arguments Err {A} e.

(** Binding a Python integer to a [?] placeholder: outside 64 bits the
    driver raises [OverflowError] before the statement runs. *)
Definition bind_int (n : Z) : option Z :=
  if (MIN_INT64 <=? n) && (n <=? MAX_ROWID) then Some n else None.

(** *** ORDER BY *)

(** NULL sorts before every value in ascending order. *)
Definition compare_nulls_first {A : Type} (cmp : A -> A -> comparison)
    (x y : option A) : comparison :=
  match x, y with
  | None, None => Eq
  | None, Some _ => Lt
  | Some _, None => Gt
  | Some a, Some b => cmp a b
  end.

(** The next term of an ORDER BY list decides only among ties. *)
Definition then_by (c1 c2 : comparison) : comparison :=
  match c1 with Eq => c2 | _ => c1 end.

(** [ORDER BY due_date ASC, id ASC]; TEXT compares code point by code
    point (the BINARY collation). *)
Definition by_due_date_id (x y : task) : comparison :=
  then_by (compare_nulls_first String.compare (due_date x) (due_date y))
          (Z.compare (id x) (id y)).

(** [ORDER BY completed ASC, due_date ASC, id ASC] *)
Definition by_completed_due_date_id (x y : task) : comparison :=
  then_by (compare_nulls_first Z.compare (completed x) (completed y))
          (by_due_date_id x y).

(** [x] may come before [y]. *)
Definition ordered {A : Type} (cmp : A -> A -> comparison) (x y : A) : Prop :=
  cmp x y <> Gt.

#[global] Instance ordered_dec {A : Type} (cmp : A -> A -> comparison) :
  RelDecision (ordered cmp).
Proof. intros x y. unfold ordered. apply _. Defined.

(** The sorter.  What is proved of it below uses only that its output
    is a sorted rearrangement of its input. *)
Definition order_by (cmp : task -> task -> comparison) (l : list task)
  : list task :=
  merge_sort (ordered cmp) l.

(** *** The statements the program issues *)

(** [CREATE TABLE IF NOT EXISTS tasks (...)] *)
Definition create_table_if_not_exists (d : database) : result database :=
  match d with
  | None => Ok (Some (mk_table [] 0))
  | Some t => Ok (Some t)
  end.

(** The largest rowid the table has ever held, as the engine reckons it
    for the next INSERT: the larger of the AUTOINCREMENT entry and the
    largest rowid in the table, where an empty table counts as 0 (the
    first rowid of an empty table is at least 1). *)
Definition largest_rowid (t : tasks_table) : Z :=
  match rows t with
  | [] => Z.max (seq t) 0
  | _ :: _ => fold_right Z.max (seq t) (id <$> rows t)
  end.

(** [INSERT INTO tasks (description, due_date) VALUES (?, ?)].
    AUTOINCREMENT takes one more than the largest rowid ever held and
    fails when that was the largest possible one; [completed] is not
    named and gets its DEFAULT 0. *)
Definition insert_task (desc : string) (due : option string) (d : database)
  : result database :=
  match d with
  | None => Err NoSuchTable
  | Some t =>
      let m := largest_rowid t in
      if MAX_ROWID <=? m then Err DatabaseFull
      else Ok (Some (mk_table (rows t ++ [mk_task (m + 1) desc due (Some 0)])
                              (m + 1)))
  end.

Definition set_completed (v : Z) (r : task) : task :=
  mk_task (id r) (description r) (due_date r) (Some v).

(** The number of rows a WHERE clause on [id] selects; it is what
    [cursor.rowcount] shows after an UPDATE or DELETE. *)
Definition matching (i : Z) (t : tasks_table) : Z :=
  Z.of_nat (length (filter (fun r => id r = i) (rows t))).

(** [UPDATE tasks SET completed = 1 WHERE id = ?] *)
Definition update_completed (i : Z) (d : database) : result (database * Z) :=
  match d with
  | None => Err NoSuchTable
  | Some t =>
      Ok (Some (mk_table
                  ((fun r => if id r =? i then set_completed 1 r else r)
                     <$> rows t)
                  (seq t)),
          matching i t)
  end.

(** [DELETE FROM tasks WHERE id = ?] *)
Definition delete_where_id (i : Z) (d : database) : result (database * Z) :=
  match d with
  | None => Err NoSuchTable
  | Some t =>
      Ok (Some (mk_table (filter (fun r => id r <> i) (rows t)) (seq t)),
          matching i t)
  end.

(** [SELECT id, description, due_date, completed FROM tasks
     ORDER BY completed ASC, due_date ASC, id ASC] *)
Definition select_all (d : database) : result (list task) :=
  match d with
  | None => Err NoSuchTable
  | Some t => Ok (order_by by_completed_due_date_id (rows t))
  end.

(** [SELECT id, description, due_date, completed FROM tasks
     WHERE completed = 0 ORDER BY due_date ASC, id ASC] *)
Definition select_pending (d : database) : result (list task) :=
  match d with
  | None => Err NoSuchTable
  | Some t =>
      Ok (order_by by_due_date_id
            (filter (fun r => completed r = Some 0) (rows t)))
  end.

(** Preparing a statement on [tasks], which [cursor.execute] does before
    it binds the parameters: it fails while there is no such table. *)
Definition prepare (d : database) : result unit :=
  match d with
  | None => Err NoSuchTable
  | Some _ => Ok tt
  end.

(** *** Connections

    A connection works on its own copy of the file's content; [commit]
    writes the copy back, [close] drops whatever was not committed. *)
Record connection : Type := mk_conn {
  disk : database;
  txn : database
}.

Definition connect (d : database) : connection := mk_conn d d.
Definition write (c : connection) (d : database) : connection :=
  mk_conn (disk c) d.
Definition commit (c : connection) : connection := mk_conn (txn c) (txn c).
Definition close (c : connection) : database := disk c.

End Sqlite.

Import Sqlite.

(** ** The program *)

Definition nl : string := String "010" EmptyString.

(** What a call of a storage function leaves behind: the file, the lines
    it printed, and what it handed to its caller. *)
Record effect : Type := mk_effect {
  db_after : database;
  stdout : list string;
  outcome : Py.outcome Py.value
}.

(** [connect_db]: the connection, or [None] when the file cannot be
    opened.  The file is taken to be accessible. *)
Definition connect_db (d : database) : option connection :=
  Some (connect d).

Definition create_table (d : database) : effect :=
  match connect_db d with
  | Some conn =>
      match create_table_if_not_exists (txn conn) with
      | Ok d' =>
          let conn := commit (write conn d') in
          mk_effect (close conn) ["Database table 'tasks' ensured."]
                    (Py.Returns Py.None_)
      | Err e =>
          mk_effect (close conn) ["Error creating table: " +:+ errmsg e]
                    (Py.Returns Py.None_)
      end
  | None => mk_effect d [] (Py.Returns Py.None_)
  end.

Definition add_task (description : string) (due_date : option string)
    (d : database) : effect :=
  match connect_db d with
  | Some conn =>
      match insert_task description due_date (txn conn) with
      | Ok d' =>
          let conn := commit (write conn d') in
          mk_effect (close conn)
                    ["Task '" +:+ description +:+ "' added successfully!"]
                    (Py.Returns Py.None_)
      | Err e =>
          mk_effect (close conn) ["Error adding task: " +:+ errmsg e]
                    (Py.Returns Py.None_)
      end
  | None => mk_effect d [] (Py.Returns Py.None_)
  end.

(** The rows [cursor.fetchall()] yields in [view_tasks]. *)
Definition fetch_tasks (show_completed : bool) (d : database)
  : result (list task) :=
  if show_completed then select_all d else select_pending d.

(** The line [view_tasks] prints for one row. *)
Definition task_line (task : task) : string :=
  let status :=
    match completed task with
    | Some 1 => "[DONE]"
    | _ => "[TODO]"
    end in
  let due :=
    match due_date task with
    | Some s => if Py.truthy (Some s) then "(Due: " +:+ s +:+ ")" else EmptyString
    | None => EmptyString
    end in
  pretty (id task) +:+ ". " +:+ status +:+ " " +:+ description task
  +:+ " " +:+ due.

Definition view_tasks (show_completed : bool) (d : database) : effect :=
  match connect_db d with
  | Some conn =>
      match fetch_tasks show_completed (txn conn) with
      | Ok tasks =>
          match tasks with
          | [] =>
              mk_effect (close conn) [nl +:+ "No tasks found."]
                        (Py.Returns Py.None_)
          | _ =>
              mk_effect (close conn)
                        ([nl +:+ "--- Your Tasks ---"]
                         ++ (task_line <$> tasks)
                         ++ ["------------------"])
                        (Py.Returns Py.None_)
          end
      | Err e =>
          mk_effect (close conn) ["Error viewing tasks: " +:+ errmsg e]
                    (Py.Returns Py.None_)
      end
  | None => mk_effect d [] (Py.Returns Py.None_)
  end.

Definition complete_task (task_id : Z) (d : database) : effect :=
  match connect_db d with
  | Some conn =>
      match prepare (txn conn) with
      | Err e =>
          mk_effect (close conn) ["Error completing task: " +:+ errmsg e]
                    (Py.Returns Py.None_)
      | Ok _ =>
          match bind_int task_id with
          | None => mk_effect (close conn) [] (Py.Raises Py.OverflowError)
          | Some i =>
              match update_completed i (txn conn) with
              | Ok (d', rowcount) =>
                  let conn := write conn d' in
                  if 0 <? rowcount then
                    mk_effect (close (commit conn))
                              ["Task " +:+ pretty task_id
                               +:+ " marked as completed!"]
                              (Py.Returns Py.None_)
                  else
                    mk_effect (close conn)
                              ["Task " +:+ pretty task_id
                               +:+ " not found or already completed."]
                              (Py.Returns Py.None_)
              | Err e =>
                  mk_effect (close conn)
                            ["Error completing task: " +:+ errmsg e]
                            (Py.Returns Py.None_)
              end
          end
      end
  | None => mk_effect d [] (Py.Returns Py.None_)
  end.

Definition delete_task (task_id : Z) (d : database) : effect :=
  match connect_db d with
  | Some conn =>
      match prepare (txn conn) with
      | Err e =>
          mk_effect (close conn) ["Error deleting task: " +:+ errmsg e]
                    (Py.Returns Py.None_)
      | Ok _ =>
          match bind_int task_id with
          | None => mk_effect (close conn) [] (Py.Raises Py.OverflowError)
          | Some i =>
              match delete_where_id i (txn conn) with
              | Ok (d', rowcount) =>
                  let conn := write conn d' in
                  if 0 <? rowcount then
                    mk_effect (close (commit conn))
                              ["Task " +:+ pretty task_id
                               +:+ " deleted successfully!"]
                              (Py.Returns Py.None_)
                  else
                    mk_effect (close conn)
                              ["Task " +:+ pretty task_id +:+ " not found."]
                              (Py.Returns Py.None_)
              | Err e =>
                  mk_effect (close conn) ["Error deleting task: " +:+ errmsg e]
                            (Py.Returns Py.None_)
              end
          end
      end
  | None => mk_effect d [] (Py.Returns Py.None_)
  end.

(** *** Prompts

    [input] writes its prompt and takes the next line of standard input;
    at the end of input it raises [EOFError], which nothing catches. *)
Record io (A : Type) : Type := mk_io {
  result_of : Py.outcome A;
  stdin_left : list string;
  printed : list string
}.
Arguments mk_io {A} _ _ _.
Arguments result_of {A} _.
Arguments stdin_left {A} _.
Arguments printed {A} _.

Definition date_error : string :=
  "Invalid date format. Please use YYYY-MM-DD (e.g., 2025-12-31) or leave blank.".
Definition id_not_positive : string := "Task ID must be a positive number.".
Definition id_not_a_number : string :=
  "Invalid input. Please enter a number for the Task ID.".

(** One turn of the [while True] loop per line of input. *)
Fixpoint get_valid_date_input (prompt : string) (stdin : list string)
  : io (option string) :=
  match stdin with
  | [] => mk_io (Py.Raises Py.EOFError) [] [prompt]
  | line :: rest =>
      let date_str := Py.strip line in
      if Py.is_empty date_str then mk_io (Py.Returns None) rest [prompt]
      else
        match Py.strptime_Ymd date_str with
        | Some _ => mk_io (Py.Returns (Some date_str)) rest [prompt]
        | None =>
            let again := get_valid_date_input prompt rest in
            mk_io (result_of again) (stdin_left again)
                  (prompt :: date_error :: printed again)
        end
  end.

Fixpoint get_valid_task_id_input (prompt : string) (stdin : list string)
  : io Z :=
  match stdin with
  | [] => mk_io (Py.Raises Py.EOFError) [] [prompt]
  | line :: rest =>
      let task_id_str := Py.strip line in
      match Py.int task_id_str with
      | Some task_id =>
          if task_id <=? 0 then
            let again := get_valid_task_id_input prompt rest in
            mk_io (result_of again) (stdin_left again)
                  (prompt :: id_not_positive :: printed again)
          else mk_io (Py.Returns task_id) rest [prompt]
      | None =>
          let again := get_valid_task_id_input prompt rest in
          mk_io (result_of again) (stdin_left again)
                (prompt :: id_not_a_number :: printed again)
      end
  end.

(** *** Sequences of storage calls *)

Inductive op : Type :=
| CreateTable
| AddTask (description : string) (due_date : option string)
| ViewTasks (show_completed : bool)
| CompleteTask (task_id : Z)
| DeleteTask (task_id : Z).

Definition step (o : op) (d : database) : effect :=
  match o with
  | CreateTable => create_table d
  | AddTask description due_date => add_task description due_date d
  | ViewTasks show_completed => view_tasks show_completed d
  | CompleteTask task_id => complete_task task_id d
  | DeleteTask task_id => delete_task task_id d
  end.

Definition run (ops : list op) (d : database) : database :=
  fold_left (fun d o => db_after (step o d)) ops d.

(** The file before the program has ever run, and right after
    [create_table] on it. *)
Definition fresh_file : database := None.
Definition empty_store : database := db_after (create_table fresh_file).

Definition all_rows (d : database) : list task :=
  match d with
  | Some t => rows t
  | None => []
  end.

Definition ids (d : database) : list Z := id <$> all_rows d.

(** The ids a call gave out: those of the rows it left that were not
    there before. *)
Definition assigned_by (o : op) (d : database) : list Z :=
  list_difference (ids (db_after (step o d))) (ids d).

Fixpoint assigned_ids (ops : list op) (d : database) : list Z :=
  match ops with
  | [] => []
  | o :: ops' => assigned_by o d ++ assigned_ids ops' (db_after (step o d))
  end.


(** *** The menu

    [main] creates the table and then serves the menu until the choice 6,
    or until an exception escapes. *)

(** The lines [display_menu] prints. *)
Definition display_menu : list string :=
  [nl +:+ "--- Task Manager Menu ---";
   "1. Add Task";
   "2. View Tasks (To-Do)";
   "3. View All Tasks (Including Completed)";
   "4. Complete Task";
   "5. Delete Task";
   "6. Exit";
   "-------------------------"].

Definition choice_prompt : string := "Enter your choice: ".
Definition description_prompt : string := "Enter task description: ".
Definition due_date_prompt : string :=
  "Enter due date (YYYY-MM-DD, leave blank for none): ".
Definition complete_prompt : string := "Enter the ID of the task to complete: ".
Definition delete_prompt : string := "Enter the ID of the task to delete: ".
Definition empty_description_msg : string := "Task description cannot be empty.".
Definition goodbye_msg : string := "Exiting Task Manager. Goodbye!".
Definition invalid_choice_msg : string := "Invalid choice. Please try again.".

(** One pass through the body of the [while True] loop of [main]: the
    loop goes on, or it is left, by [break] or by an exception. *)
Inductive turn : Type :=
| Again (d : database) (out : list string) (rest : list string)
| Stop (d : database) (out : list string) (rest : list string)
       (how : Py.outcome Py.value).

(** After a storage call that printed after [out]: on with the loop,
    unless the call raised. *)
Definition after_call (e : effect) (out : list string) (rest : list string)
  : turn :=
  match outcome e with
  | Py.Returns _ => Again (db_after e) (out ++ stdout e) rest
  | Py.Raises ex => Stop (db_after e) (out ++ stdout e) rest (Py.Raises ex)
  end.

(** After the task-id prompt: the storage call [call] on the id it
    returned, or the exception it raised. *)
Definition with_task_id (r : io Z) (call : Z -> database -> effect)
    (d : database) (out : list string) : turn :=
  match result_of r with
  | Py.Returns task_id =>
      after_call (call task_id d) (out ++ printed r) (stdin_left r)
  | Py.Raises ex => Stop d (out ++ printed r) (stdin_left r) (Py.Raises ex)
  end.

Definition menu_turn (stdin : list string) (d : database) : turn :=
  let shown := display_menu ++ [choice_prompt] in
  match stdin with
  | [] => Stop d shown [] (Py.Raises Py.EOFError)
  | line :: rest =>
      let choice := Py.strip line in
      if String.eqb choice "1" then
        match rest with
        | [] => Stop d (shown ++ [description_prompt]) [] (Py.Raises Py.EOFError)
        | line' :: rest' =>
            let description := Py.strip line' in
            if negb (Py.is_empty description) then
              let r := get_valid_date_input due_date_prompt rest' in
              match result_of r with
              | Py.Returns due_date =>
                  after_call (add_task description due_date d)
                             (shown ++ [description_prompt] ++ printed r)
                             (stdin_left r)
              | Py.Raises ex =>
                  Stop d (shown ++ [description_prompt] ++ printed r)
                       (stdin_left r) (Py.Raises ex)
              end
            else
              Again d (shown ++ [description_prompt; empty_description_msg])
                    rest'
        end
      else if String.eqb choice "2" then
        after_call (view_tasks false d) shown rest
      else if String.eqb choice "3" then
        after_call (view_tasks true d) shown rest
      else if String.eqb choice "4" then
        with_task_id (get_valid_task_id_input complete_prompt rest)
                     complete_task d shown
      else if String.eqb choice "5" then
        with_task_id (get_valid_task_id_input delete_prompt rest)
                     delete_task d shown
      else if String.eqb choice "6" then
        Stop d (shown ++ [goodbye_msg]) rest (Py.Returns Py.None_)
      else
        Again d (shown ++ [invalid_choice_msg]) rest
  end.

(** How a run of the program ends: the file it leaves, all it printed,
    the input it did not read, and whether [main] returned or raised. *)
Record session : Type := mk_session {
  file : database;
  screen : list string;
  unread : list string;
  ending : Py.outcome Py.value
}.

(** The loop of [main], for at most [fuel] turns; [None] when they do
    not suffice. *)
Fixpoint main_loop (fuel : nat) (stdin : list string) (d : database)
  : option session :=
  match fuel with
  | O => None
  | S fuel' =>
      match menu_turn stdin d with
      | Stop d' out rest how => Some (mk_session d' out rest how)
      | Again d' out rest =>
          match main_loop fuel' rest d' with
          | Some s =>
              Some (mk_session (file s) (out ++ screen s) (unread s) (ending s))
          | None => None
          end
      end
  end.

(** [main] on the lines [stdin].  Every turn reads at least one line, so
    one turn more than there are lines is enough. *)
Definition main (stdin : list string) (d : database) : option session :=
  let e := create_table d in
  match outcome e with
  | Py.Returns _ =>
      match main_loop (S (length stdin)) stdin (db_after e) with
      | Some s =>
          Some (mk_session (file s) (stdout e ++ screen s) (unread s)
                           (ending s))
      | None => None
      end
  | Py.Raises ex => Some (mk_session (db_after e) (stdout e) stdin (Py.Raises ex))
  end.

(** ** Vocabulary of the statements *)

(** [a] comes strictly before [b] where a nullable TEXT column is listed
    in ascending order: the absent value first, then text order. *)
Definition due_date_before (a b : option string) : Prop :=
  match a, b with
  | None, Some _ => True
  | Some x, Some y => String.ltb x y = true
  | _, None => False
  end.

(** Every earlier row of [l] has the smaller due date, or the same due
    date and no larger id. *)
Definition listed_by_due_date_then_id (l : list task) : Prop :=
  forall (i j : nat) (ri rj : task),
    (i < j)%nat -> l !! i = Some ri -> l !! j = Some rj ->
    due_date_before (due_date ri) (due_date rj)
    \/ (due_date ri = due_date rj /\ id ri <= id rj).

Definition is_pending (r : task) : Prop := completed r = Some 0.
Definition is_completed (r : task) : Prop := completed r = Some 1.

(** No completed row is listed before a pending one. *)
Definition pending_listed_first (l : list task) : Prop :=
  forall (i j : nat) (ri rj : task),
    (i < j)%nat -> l !! i = Some ri -> l !! j = Some rj ->
    ~ (is_completed ri /\ is_pending rj).

(** Among rows of equal [completed], the order is that of
    [listed_by_due_date_then_id]. *)
Definition groups_listed_by_due_date_then_id (l : list task) : Prop :=
  forall (i j : nat) (ri rj : task),
    (i < j)%nat -> l !! i = Some ri -> l !! j = Some rj ->
    completed ri = completed rj ->
    due_date_before (due_date ri) (due_date rj)
    \/ (due_date ri = due_date rj /\ id ri <= id rj).

(** What [view_tasks] prints for the rows it fetched. *)
Definition listing (tasks : list task) : list string :=
  match tasks with
  | [] => [nl +:+ "No tasks found."]
  | _ => [nl +:+ "--- Your Tasks ---"] ++ (task_line <$> tasks)
         ++ ["------------------"]
  end.

(** A table as the engine keeps it: the primary key is unique, and every
    rowid is positive and no larger than the AUTOINCREMENT entry, which
    is itself a rowid or 0. *)
Definition wf_table (t : tasks_table) : Prop :=
  NoDup (id <$> rows t)
  /\ Forall (fun r => 1 <= id r <= seq t) (rows t)
  /\ 0 <= seq t <= MAX_ROWID.

Definition wf (d : database) : Prop :=
  match d with
  | Some t => wf_table t
  | None => True
  end.

Definition has_row (i : Z) (t : tasks_table) : Prop :=
  exists r, r ∈ rows t /\ id r = i.

(** A 64-bit signed integer. *)
Definition fits_int64 (n : Z) : Prop := MIN_INT64 <= n <= MAX_ROWID.

Definition completed_msg (task_id : Z) : string :=
  "Task " +:+ pretty task_id +:+ " marked as completed!".
Definition not_completed_msg (task_id : Z) : string :=
  "Task " +:+ pretty task_id +:+ " not found or already completed.".
Definition deleted_msg (task_id : Z) : string :=
  "Task " +:+ pretty task_id +:+ " deleted successfully!".
Definition not_found_msg (task_id : Z) : string :=
  "Task " +:+ pretty task_id +:+ " not found.".

(** The spec's reading of the date format: four digits, a dash, two
    digits, a dash, two digits, naming a date of the calendar. *)
Definition is_YYYY_MM_DD (s : string) : bool :=
  match s with
  | String y1 (String y2 (String y3 (String y4 (String dash1
      (String m1 (String m2 (String dash2
        (String d1 (String d2 EmptyString))))))))) =>
      Ascii.eqb dash1 "-" && Ascii.eqb dash2 "-"
      && Py.isdigit y1 && Py.isdigit y2 && Py.isdigit y3 && Py.isdigit y4
      && Py.isdigit m1 && Py.isdigit m2 && Py.isdigit d1 && Py.isdigit d2
      && Py.valid_date
           (1000 * Py.digit_value y1 + 100 * Py.digit_value y2
            + 10 * Py.digit_value y3 + Py.digit_value y4)
           (Py.two_digits m1 m2) (Py.two_digits d1 d2)
  | _ => false
  end.

(** A line the task-id prompt takes: it reads as the positive integer
    [n]. *)
Definition parses_as_positive (line : string) (n : Z) : Prop :=
  Py.int (Py.strip line) = Some n /\ 0 < n.

(** The AUTOINCREMENT entry of the file, 0 while there is no table. *)
Definition counter (d : database) : Z :=
  match d with
  | Some t => seq t
  | None => 0
  end.

(** No row has the id [i], and none will: it is at most the
    AUTOINCREMENT entry. *)
Definition gone (i : Z) (d : database) : Prop :=
  wf d /\ (i ∉ ids d) /\ i <= counter d.



Definition completed_is_0_or_1 (d : database) : Prop :=
  Forall (fun r => completed r = Some 0 \/ completed r = Some 1) (all_rows d).

(** The message the task-id prompt prints for a line it does not take. *)
Definition id_rejection (line : string) : string :=
  match Py.int (Py.strip line) with
  | Some _ => id_not_positive
  | None => id_not_a_number
  end.

(** What the task-id prompt has printed when it stops after turning down
    the lines [rejected]: the prompt and a message for each of them, and
    the prompt once more. *)
Definition id_prompts (prompt : string) (rejected : list string) : list string :=
  concat ((fun line => [prompt; id_rejection line]) <$> rejected) ++ [prompt].

(** The same for the date prompt, which has one message. *)
Definition date_prompts (prompt : string) (rejected : list string)
  : list string :=
  concat ((fun _ => [prompt; date_error]) <$> rejected) ++ [prompt].

(** A line the date prompt takes: blank, for no due date, or one that
    [strptime] reads. *)
Definition date_taken (line : string) : option (option string) :=
  let s := Py.strip line in
  if Py.is_empty s then Some None
  else match Py.strptime_Ymd s with
       | Some _ => Some (Some s)
       | None => None
       end.

(** What a three-way comparison must satisfy for [ordered] to be a
    total preorder. *)
Record comparator {A : Type} (cmp : A -> A -> comparison) : Prop := {
  cmp_opp : forall x y, cmp x y = CompOpp (cmp y x);
  cmp_lt_trans : forall x y z, cmp x y = Lt -> cmp y z = Lt -> cmp x z = Lt;
  cmp_eq_subst : forall x y z, cmp x y = Eq -> cmp x z = cmp y z
}.

(** A due date as the date prompt hands it on: none, or a non-empty
    string that [strptime] reads. *)
Definition due_date_ok (due : option string) : Prop :=
  match due with
  | None => True
  | Some s => Py.is_empty s = false /\ exists ymd, Py.strptime_Ymd s = Some ymd
  end.

(** A row as the menu stores it. *)
Definition row_valid (r : task) : Prop :=
  Py.is_empty (description r) = false /\ due_date_ok (due_date r).

(** A storage call as the menu makes it. *)
Definition menu_op (o : op) : Prop :=
  match o with
  | CreateTable => False
  | AddTask description due_date =>
      Py.is_empty description = false /\ due_date_ok due_date
  | ViewTasks _ => True
  | CompleteTask task_id => 0 < task_id
  | DeleteTask task_id => 0 < task_id
  end.

(** The file a turn of the menu leaves. *)
Definition turn_file (t : turn) : database :=
  match t with
  | Again d _ _ => d
  | Stop d _ _ _ => d
  end.

(** The ways [main] ends: by the choice 6, after its farewell; at the end
    of the input; or on an id too large for the engine. *)
Definition ends_properly (s : session) : Prop :=
  (ending s = Py.Returns Py.None_ /\ last (screen s) = Some goodbye_msg)
  \/ (ending s = Py.Raises Py.EOFError /\ unread s = [])
  \/ ending s = Py.Raises Py.OverflowError.

(** ** Orders *)

Section Comparators.

Lemma comparator_Z : comparator Z.compare.
Proof.
  split; intros.
  - apply Z.compare_antisym.
  - rewrite Z.compare_lt_iff in *. lia.
  - apply Z.compare_eq in H. by subst.
Qed.

Lemma ascii_compare_lt_trans (a b c : ascii) :
  Ascii.compare a b = Lt -> Ascii.compare b c = Lt -> Ascii.compare a c = Lt.
Proof. unfold Ascii.compare. rewrite !N.compare_lt_iff. lia. Qed.

Lemma string_compare_lt_trans (x y z : string) :
  String.compare x y = Lt -> String.compare y z = Lt ->
  String.compare x z = Lt.
Proof.
  revert y z. induction x as [|a x IH]; intros [|b y] [|c z]; simpl;
    try done.
  destruct (Ascii.compare a b) eqn:Hab; try done;
    destruct (Ascii.compare b c) eqn:Hbc; try done; intros Hxy Hyz.
  - apply Ascii.compare_eq_iff in Hab, Hbc. subst.
    assert (Ascii.compare c c = Eq) as -> by (unfold Ascii.compare; apply N.compare_refl).
    eauto.
  - apply Ascii.compare_eq_iff in Hab. subst. by rewrite Hbc.
  - apply Ascii.compare_eq_iff in Hbc. subst. by rewrite Hab.
  - by rewrite (ascii_compare_lt_trans _ _ _ Hab Hbc).
Qed.

Lemma comparator_string : comparator String.compare.
Proof.
  split; intros.
  - apply String.compare_antisym.
  - eauto using string_compare_lt_trans.
  - apply String.compare_eq_iff in H. by subst.
Qed.

Context {A : Type}.

Lemma comparator_nulls_first (cmp : A -> A -> comparison) :
  comparator cmp -> comparator (compare_nulls_first cmp).
Proof.
  intros [Ho Ht He]. split.
  - intros [x|] [y|]; simpl; auto.
  - intros [x|] [y|] [z|]; simpl; eauto; done.
  - intros [x|] [y|] [z|]; simpl; eauto; done.
Qed.

Lemma comparator_on {B : Type} (f : A -> B) (cmp : B -> B -> comparison) :
  comparator cmp -> comparator (fun x y => cmp (f x) (f y)).
Proof. intros [Ho Ht He]. split; eauto. Qed.

Lemma comparator_then_by (c1 c2 : A -> A -> comparison) :
  comparator c1 -> comparator c2 ->
  comparator (fun x y => then_by (c1 x y) (c2 x y)).
Proof.
  intros [Ho1 Ht1 He1] [Ho2 Ht2 He2]. split.
  - intros x y. rewrite (Ho1 x y), (Ho2 x y).
    by destruct (c1 y x), (c2 y x).
  - intros x y z. unfold then_by.
    destruct (c1 x y) eqn:Hxy; try done.
    + rewrite (He1 _ _ z Hxy). destruct (c1 y z); eauto.
    + destruct (c1 y z) eqn:Hyz; try done.
      * intros _ _. assert (c1 z y = Eq) as Hzy.
        { rewrite Ho1, Hyz. done. }
        assert (c1 x z = Lt) as ->; [|done].
        rewrite Ho1, (He1 _ _ x Hzy), Ho1, Hxy. done.
      * by rewrite (Ht1 _ _ _ Hxy Hyz).
  - intros x y z. unfold then_by.
    destruct (c1 x y) eqn:Hxy; try done.
    intros Hc2. by rewrite (He1 _ _ z Hxy), (He2 _ _ z Hc2).
Qed.

Context (cmp : A -> A -> comparison) (Hcmp : comparator cmp).

Lemma ordered_total : Total (ordered cmp).
Proof.
  intros x y. unfold ordered. rewrite (cmp_opp cmp Hcmp y x).
  destruct (cmp x y); simpl; [left|left|right]; done.
Qed.

Lemma ordered_trans : Transitive (ordered cmp).
Proof.
  intros x y z. unfold ordered. intros Hxy Hyz.
  destruct (cmp x y) eqn:E1; [| |done].
  - by rewrite (cmp_eq_subst cmp Hcmp _ _ z E1).
  - destruct (cmp y z) eqn:E2; [| |done].
    + assert (cmp z y = Eq) as Hzy.
      { rewrite (cmp_opp cmp Hcmp), E2. done. }
      rewrite (cmp_opp cmp Hcmp), (cmp_eq_subst cmp Hcmp _ _ x Hzy),
        (cmp_opp cmp Hcmp), E1. done.
    + by rewrite (cmp_lt_trans cmp Hcmp _ _ _ E1 E2).
Qed.

End Comparators.

Section Listing.

Lemma comparator_by_due_date_id : comparator by_due_date_id.
Proof.
  apply (comparator_then_by
           (fun x y => compare_nulls_first String.compare (due_date x) (due_date y))
           (fun x y => Z.compare (id x) (id y))).
  - apply (comparator_on due_date), comparator_nulls_first, comparator_string.
  - apply (comparator_on id), comparator_Z.
Qed.

Lemma comparator_by_completed_due_date_id :
  comparator by_completed_due_date_id.
Proof.
  apply (comparator_then_by
           (fun x y => compare_nulls_first Z.compare (completed x) (completed y))
           by_due_date_id).
  - apply (comparator_on completed), comparator_nulls_first, comparator_Z.
  - apply comparator_by_due_date_id.
Qed.

Lemma order_by_sorted (cmp : task -> task -> comparison) (l : list task) :
  comparator cmp -> StronglySorted (ordered cmp) (order_by cmp l).
Proof.
  intros Hc. unfold order_by.
  apply (@StronglySorted_merge_sort _ _ _ (ordered_trans cmp Hc)
           (ordered_total cmp Hc)).
Qed.

Lemma order_by_perm (cmp : task -> task -> comparison) (l : list task) :
  order_by cmp l ≡ₚ l.
Proof. apply merge_sort_Permutation. Qed.

Lemma sorted_lookup {A : Type} (R : relation A) (l : list A) :
  StronglySorted R l ->
  forall (i j : nat) (x y : A),
    (i < j)%nat -> l !! i = Some x -> l !! j = Some y -> R x y.
Proof.
  induction 1 as [|a l Hs IH Ha]; intros i j x y Hij Hi Hj.
  - by rewrite lookup_nil in Hi.
  - destruct j as [|j]; [lia|]. simpl in Hj.
    destruct i as [|i]; simpl in Hi.
    + injection Hi as <-. rewrite Forall_forall in Ha.
      apply Ha. eapply list_elem_of_lookup_2; eauto.
    + eapply (IH i j); eauto. lia.
Qed.

Lemma compare_nulls_first_string_eq (a b : option string) :
  compare_nulls_first String.compare a b = Eq -> a = b.
Proof.
  destruct a, b; simpl; try done.
  intros H. by apply String.compare_eq_iff in H as ->.
Qed.

Lemma compare_nulls_first_string_lt (a b : option string) :
  compare_nulls_first String.compare a b = Lt -> due_date_before a b.
Proof.
  destruct a, b; simpl; try done. unfold String.ltb. by intros ->.
Qed.

Lemma ordered_by_due_date_id (x y : task) :
  ordered by_due_date_id x y ->
  due_date_before (due_date x) (due_date y)
  \/ (due_date x = due_date y /\ id x <= id y).
Proof.
  unfold ordered, by_due_date_id, then_by.
  destruct (compare_nulls_first _ _ _) eqn:E; [| |done].
  - intros Hid. right. split.
    + by apply compare_nulls_first_string_eq.
    + by apply Z.compare_le_iff.
  - intros _. left. by apply compare_nulls_first_string_lt.
Qed.

Lemma ordered_by_completed (x y : task) :
  ordered by_completed_due_date_id x y ->
  ~ (is_completed x /\ is_pending y)
  /\ (completed x = completed y -> ordered by_due_date_id x y).
Proof.
  unfold ordered, by_completed_due_date_id, then_by, is_completed, is_pending.
  intros H. split.
  - intros [Hx Hy]. rewrite Hx, Hy in H. simpl in H. done.
  - intros Heq. rewrite Heq in H.
    destruct (completed y) as [c|]; simpl in H; [|done].
    by rewrite Z.compare_refl in H.
Qed.

Lemma listing_spec (show_completed : bool) (t : tasks_table) (l : list task) :
  fetch_tasks show_completed (Some t) = Ok l ->
  view_tasks show_completed (Some t)
  = mk_effect (Some t) (listing l) (Py.Returns Py.None_).
Proof.
  intros H. unfold view_tasks, connect_db. simpl. rewrite H.
  by destruct l.
Qed.

(** C3.  Listing the pending tasks: [view_tasks(show_completed=False)]
    fetches exactly the rows whose [completed] is 0, so never a row
    whose [completed] is 1, ordered by due date ascending with the rows
    without a due date first and then by id ascending; it prints them in
    that order and leaves the store as it was. *)
Theorem view_tasks_pending_exact_and_ordered (t : tasks_table) :
  exists l : list task,
    fetch_tasks false (Some t) = Ok l
    /\ view_tasks false (Some t)
       = mk_effect (Some t) (listing l) (Py.Returns Py.None_)
    /\ l ≡ₚ filter (fun r => completed r = Some 0) (rows t)
    /\ (forall r, r ∈ l <-> r ∈ rows t /\ is_pending r)
    /\ Forall (fun r => ~ is_completed r) l
    /\ listed_by_due_date_then_id l.
Proof.
  exists (order_by by_due_date_id
            (filter (fun r => completed r = Some 0) (rows t))).
  assert (forall r,
    r ∈ order_by by_due_date_id
          (filter (fun r => completed r = Some 0) (rows t))
    <-> r ∈ rows t /\ is_pending r) as Hmem.
  { intros r. rewrite order_by_perm, list_elem_of_filter.
    unfold is_pending. tauto. }
  split; [done|]. split; [by apply listing_spec|].
  split; [apply order_by_perm|]. split; [done|]. split.
  - apply Forall_forall. intros r Hr%Hmem.
    destruct Hr as [_ Hr]. unfold is_pending, is_completed in *. congruence.
  - intros i j ri rj Hij Hi Hj. apply ordered_by_due_date_id.
    eapply sorted_lookup; eauto.
    apply order_by_sorted, comparator_by_due_date_id.
Qed.

(** C4.  Listing all tasks: [view_tasks(show_completed=True)] fetches
    every row, with no completed row before a pending one and, among rows
    of the same status, by due date ascending with the rows without a due
    date first and then by id ascending; on a table without rows it
    fetches the empty sequence and reports that, without an error. *)
Theorem view_tasks_all_grouped_and_ordered (t : tasks_table) :
  exists l : list task,
    fetch_tasks true (Some t) = Ok l
    /\ view_tasks true (Some t)
       = mk_effect (Some t) (listing l) (Py.Returns Py.None_)
    /\ l ≡ₚ rows t
    /\ pending_listed_first l
    /\ groups_listed_by_due_date_then_id l
    /\ (rows t = [] ->
        l = [] /\ stdout (view_tasks true (Some t)) = [nl +:+ "No tasks found."]).
Proof.
  exists (order_by by_completed_due_date_id (rows t)).
  pose proof (order_by_sorted by_completed_due_date_id (rows t)
                comparator_by_completed_due_date_id) as Hs.
  split; [done|]. split; [by apply listing_spec|].
  split; [apply order_by_perm|]. split; [|split].
  - intros i j ri rj Hij Hi Hj.
    eapply ordered_by_completed, sorted_lookup; eauto.
  - intros i j ri rj Hij Hi Hj Heq.
    apply ordered_by_due_date_id.
    eapply ordered_by_completed; [|done]. eapply sorted_lookup; eauto.
  - intros Hnil. rewrite (listing_spec true t _ eq_refl). simpl.
    rewrite Hnil. done.
Qed.

End Listing.

(** ** The storage functions *)

Section Storage.

Lemma bind_int_fits (n : Z) : fits_int64 n -> bind_int n = Some n.
Proof.
  unfold fits_int64, bind_int. intros [Hlo Hhi].
  apply Z.leb_le in Hlo, Hhi. by rewrite Hlo, Hhi.
Qed.

Lemma bind_int_overflow (n : Z) : ~ fits_int64 n -> bind_int n = None.
Proof.
  unfold fits_int64, bind_int. intros H.
  destruct (MIN_INT64 <=? n) eqn:Hlo; [|done].
  destruct (n <=? MAX_ROWID) eqn:Hhi; [|done].
  apply Z.leb_le in Hlo, Hhi. lia.
Qed.

Lemma matching_pos (i : Z) (t : tasks_table) :
  0 < matching i t <-> has_row i t.
Proof.
  unfold matching, has_row. split.
  - intros H. destruct (filter _ _) as [|r l] eqn:E; [simpl in H; lia|].
    assert (r ∈ filter (fun r => id r = i) (rows t)) as Hr
      by (rewrite E; left).
    apply list_elem_of_filter in Hr as [? ?]. eauto.
  - intros (r & Hr & Hid).
    assert (r ∈ filter (fun r => id r = i) (rows t)) as Hin
      by (by apply list_elem_of_filter).
    destruct (filter _ _); [inversion Hin | simpl; lia].
Qed.

Lemma matching_none (i : Z) (t : tasks_table) :
  ~ has_row i t -> matching i t = 0.
Proof.
  intros H. rewrite <- matching_pos in H. unfold matching in *. lia.
Qed.

Lemma has_row_ids (i : Z) (t : tasks_table) :
  has_row i t <-> i ∈ ids (Some t).
Proof.
  unfold has_row, ids. simpl. rewrite list_elem_of_fmap.
  split; intros (r & ? & ?); exists r; done.
Qed.

(** The three writers, by cases. *)

Lemma add_task_eq (description : string) (due_date : option string)
    (t : tasks_table) :
  add_task description due_date (Some t)
  = if MAX_ROWID <=? largest_rowid t then
      mk_effect (Some t) ["Error adding task: " +:+ errmsg DatabaseFull]
                (Py.Returns Py.None_)
    else
      mk_effect
        (Some (mk_table
                 (rows t ++ [mk_task (largest_rowid t + 1) description
                                     due_date (Some 0)])
                 (largest_rowid t + 1)))
        ["Task '" +:+ description +:+ "' added successfully!"]
        (Py.Returns Py.None_).
Proof.
  unfold add_task, connect_db, insert_task. cbn [txn connect].
  by destruct (MAX_ROWID <=? largest_rowid t).
Qed.

Lemma complete_task_eq (task_id : Z) (t : tasks_table) :
  fits_int64 task_id ->
  complete_task task_id (Some t)
  = if 0 <? matching task_id t then
      mk_effect
        (Some (mk_table
                 ((fun r => if id r =? task_id then set_completed 1 r else r)
                    <$> rows t)
                 (seq t)))
        [completed_msg task_id] (Py.Returns Py.None_)
    else
      mk_effect (Some t) [not_completed_msg task_id] (Py.Returns Py.None_).
Proof.
  intros H. unfold complete_task, connect_db, update_completed.
  cbn [txn connect prepare]. rewrite (bind_int_fits _ H).
  by destruct (0 <? matching task_id t).
Qed.

Lemma delete_task_eq (task_id : Z) (t : tasks_table) :
  fits_int64 task_id ->
  delete_task task_id (Some t)
  = if 0 <? matching task_id t then
      mk_effect
        (Some (mk_table (filter (fun r => id r <> task_id) (rows t)) (seq t)))
        [deleted_msg task_id] (Py.Returns Py.None_)
    else
      mk_effect (Some t) [not_found_msg task_id] (Py.Returns Py.None_).
Proof.
  intros H. unfold delete_task, connect_db, delete_where_id.
  cbn [txn connect prepare]. rewrite (bind_int_fits _ H).
  by destruct (0 <? matching task_id t).
Qed.

(** With the table there, an integer that does not fit 64 bits cannot be
    bound to the prepared statement: the call raises and the file stays
    as it was. *)
Lemma complete_task_overflow (task_id : Z) (t : tasks_table) :
  ~ fits_int64 task_id ->
  complete_task task_id (Some t)
  = mk_effect (Some t) [] (Py.Raises Py.OverflowError).
Proof.
  intros H. unfold complete_task, connect_db. cbn [txn connect prepare].
  by rewrite (bind_int_overflow _ H).
Qed.

Lemma delete_task_overflow (task_id : Z) (t : tasks_table) :
  ~ fits_int64 task_id ->
  delete_task task_id (Some t)
  = mk_effect (Some t) [] (Py.Raises Py.OverflowError).
Proof.
  intros H. unfold delete_task, connect_db. cbn [txn connect prepare].
  by rewrite (bind_int_overflow _ H).
Qed.

(** Without the table the statement cannot be prepared, whatever the
    id: the error is caught and printed. *)
Lemma complete_task_no_table (task_id : Z) :
  complete_task task_id None
  = mk_effect None ["Error completing task: no such table: tasks"]
              (Py.Returns Py.None_).
Proof. reflexivity. Qed.

Lemma delete_task_no_table (task_id : Z) :
  delete_task task_id None
  = mk_effect None ["Error deleting task: no such table: tasks"]
              (Py.Returns Py.None_).
Proof. reflexivity. Qed.

Lemma view_tasks_db (show_completed : bool) (d : database) :
  db_after (view_tasks show_completed d) = d.
Proof.
  unfold view_tasks, connect_db. cbn [txn connect].
  destruct (fetch_tasks show_completed d) as [[|r l]|e]; done.
Qed.

Lemma create_table_db (d : database) :
  db_after (create_table d)
  = match d with None => Some (mk_table [] 0) | Some t => Some t end.
Proof. by destruct d. Qed.

(** Without the table every writer reports the engine's error and
    changes nothing. *)
Lemma no_table_no_change (o : op) :
  o <> CreateTable -> db_after (step o None) = None.
Proof.
  by destruct o as [|? ?|[]|task_id|task_id].
Qed.

End Storage.

(** ** What every call preserves *)

Section Invariants.

Lemma largest_rowid_above (t : tasks_table) :
  seq t <= largest_rowid t
  /\ Forall (fun r => id r <= largest_rowid t) (rows t).
Proof.
  destruct t as [l s]. unfold largest_rowid. cbn [rows seq].
  destruct l as [|r0 l0]; [split; [lia | constructor]|].
  generalize (r0 :: l0). clear r0 l0. intros l.
  induction l as [|r l [IH1 IH2]]; csimpl.
  - split; [lia | constructor].
  - split; [lia|]. constructor; [lia|].
    eapply Forall_impl; [exact IH2|]. simpl. intros. lia.
Qed.

Lemma largest_rowid_wf (t : tasks_table) :
  wf_table t -> largest_rowid t = seq t.
Proof.
  intros (_ & Hall & Hseq). destruct t as [l s]. unfold largest_rowid.
  cbn [rows seq] in *. destruct l as [|r0 l0]; [lia|].
  clear Hseq. revert Hall. generalize (r0 :: l0). clear r0 l0. intros l Hall.
  induction Hall as [|r l Hr _ IH]; csimpl; [done|].
  rewrite IH. lia.
Qed.

Lemma ids_update_completed (i : Z) (l : list task) :
  id <$> ((fun r => if id r =? i then set_completed 1 r else r) <$> l)
  = id <$> l.
Proof.
  induction l as [|r l IH]; csimpl; [done|]. rewrite IH.
  by destruct (id r =? i).
Qed.

(** A call on an existing, well-formed table leaves it as it was, or
    appends one row, or marks the rows with one id, or removes them. *)
Lemma step_cases (o : op) (t : tasks_table) :
  wf_table t ->
  exists t', db_after (step o (Some t)) = Some t'
    /\ (t' = t
        \/ (exists description due_date,
              o = AddTask description due_date /\ seq t < MAX_ROWID
              /\ t' = mk_table
                        (rows t ++ [mk_task (seq t + 1) description due_date
                                            (Some 0)])
                        (seq t + 1))
        \/ (exists i,
              o = CompleteTask i /\ has_row i t
              /\ t' = mk_table
                        ((fun r => if id r =? i then set_completed 1 r else r)
                           <$> rows t)
                        (seq t))
        \/ (exists i,
              o = DeleteTask i /\ has_row i t
              /\ t' = mk_table (filter (fun r => id r <> i) (rows t)) (seq t))).
Proof.
  intros Hwf.
  destruct o as [|description due_date|show_completed|task_id|task_id];
    cbn [step].
  - exists t. by split; [|left].
  - rewrite add_task_eq, (largest_rowid_wf t Hwf).
    destruct (MAX_ROWID <=? seq t) eqn:E.
    + exists t. by split; [|left].
    + apply Z.leb_gt in E. eexists. split; [done|]. right. left. eauto.
  - rewrite view_tasks_db. exists t. by split; [|left].
  - destruct (decide (MIN_INT64 <= task_id <= MAX_ROWID)) as [Hfit|Hfit].
    + rewrite (complete_task_eq _ _ Hfit).
      destruct (0 <? matching task_id t) eqn:E.
      * apply Z.ltb_lt, matching_pos in E. eexists. split; [done|].
        right. right. left. eauto.
      * exists t. by split; [|left].
    + rewrite (complete_task_overflow _ _ Hfit). exists t. by split; [|left].
  - destruct (decide (MIN_INT64 <= task_id <= MAX_ROWID)) as [Hfit|Hfit].
    + rewrite (delete_task_eq _ _ Hfit).
      destruct (0 <? matching task_id t) eqn:E.
      * apply Z.ltb_lt, matching_pos in E. eexists. split; [done|].
        right. right. right. eauto.
      * exists t. by split; [|left].
    + rewrite (delete_task_overflow _ _ Hfit). exists t. by split; [|left].
Qed.

(** Without the table, only [create_table] changes the file. *)
Lemma step_no_table (o : op) :
  db_after (step o None) = None
  \/ (o = CreateTable /\ db_after (step o None) = Some (mk_table [] 0)).
Proof.
  destruct o; [by right | left; by apply no_table_no_change..].
Qed.

Lemma wf_empty_table : wf_table (mk_table [] 0).
Proof.
  unfold wf_table. simpl. split; [constructor|]. split; [constructor|].
  unfold MAX_ROWID. lia.
Qed.

Lemma wf_step (o : op) (d : database) : wf d -> wf (db_after (step o d)).
Proof.
  intros Hwf. destruct d as [t|].
  - destruct (step_cases o t Hwf) as (t' & -> & Hcases). simpl.
    destruct Hwf as (Hnd & Hall & Hseq).
    destruct Hcases as [->|[(desc & due & _ & Hmax & ->)
                           |[(i & _ & _ & ->)|(i & _ & _ & ->)]]].
    + done.
    + split; [|split]; simpl.
      * rewrite fmap_app. apply NoDup_app. split; [done|]. split.
        -- intros x Hx Hx'. simpl in Hx'.
           apply list_elem_of_singleton in Hx'. subst.
           apply list_elem_of_fmap in Hx as (r & Heq & Hr).
           rewrite Forall_forall in Hall. specialize (Hall r Hr). lia.
        -- apply NoDup_singleton.
      * apply Forall_app. split.
        -- eapply Forall_impl; [exact Hall|]. simpl. intros. lia.
        -- apply Forall_singleton. simpl. lia.
      * lia.
    + split; [|split]; simpl.
      * by rewrite ids_update_completed.
      * apply Forall_fmap. eapply Forall_impl; [exact Hall|].
        intros r Hr. simpl. by destruct (id r =? i).
      * done.
    + split; [|split]; simpl.
      * eapply sublist_NoDup; [exact Hnd|].
        apply fmap_sublist, sublist_filter.
      * rewrite Forall_forall in *. intros r Hr.
        apply list_elem_of_filter in Hr as [_ Hr]. auto.
      * done.
  - destruct (step_no_table o) as [->|[_ ->]]; [done|]. apply wf_empty_table.
Qed.

Lemma wf_run (ops : list op) (d : database) : wf d -> wf (run ops d).
Proof.
  revert d. induction ops as [|o ops IH]; intros d Hwf; [done|].
  apply IH, wf_step, Hwf.
Qed.

Lemma completed_step (o : op) (d : database) :
  wf d -> completed_is_0_or_1 d -> completed_is_0_or_1 (db_after (step o d)).
Proof.
  intros Hwf Hc. destruct d as [t|].
  - destruct (step_cases o t Hwf) as (t' & -> & Hcases).
    unfold completed_is_0_or_1 in *. simpl in *.
    destruct Hcases as [->|[(desc & due & _ & Hmax & ->)
                           |[(i & _ & _ & ->)|(i & _ & _ & ->)]]]; simpl.
    + done.
    + apply Forall_app. split; [done|]. apply Forall_singleton. by left.
    + apply Forall_fmap. eapply Forall_impl; [exact Hc|].
      intros r Hr. simpl. destruct (id r =? i); [by right | done].
    + rewrite Forall_forall in *. intros r Hr.
      apply list_elem_of_filter in Hr as [_ Hr]. auto.
  - destruct (step_no_table o) as [->|[_ ->]]; [done|]. constructor.
Qed.

Lemma completed_run (ops : list op) (d : database) :
  wf d -> completed_is_0_or_1 d -> completed_is_0_or_1 (run ops d).
Proof.
  revert d. induction ops as [|o ops IH]; intros d Hwf Hc; [done|].
  apply IH; [by apply wf_step | by apply completed_step].
Qed.

(** C10.  In every store reached from the file without a table, or from
    the freshly created table, by any calls of [create_table],
    [add_task], [complete_task], [delete_task] (and [view_tasks]), the
    [completed] column of every row holds 0 or 1 and never NULL, although
    the schema would allow NULL: [add_task] leaves the column to its
    DEFAULT 0 and [complete_task] writes 1. *)
Theorem completed_always_0_or_1 (ops : list op) :
  completed_is_0_or_1 (run ops fresh_file)
  /\ completed_is_0_or_1 (run ops empty_store).
Proof.
  split.
  - apply completed_run; [done | constructor].
  - apply completed_run; [apply wf_empty_table | constructor].
Qed.

End Invariants.

(** ** Identity of tasks *)

Section Identity.














(** The ids of three additions with a deletion of the second in
    between: the deleted id 2 is not given out again. *)
Example ids_after_deletion :
  assigned_ids [AddTask "a" None; AddTask "b" None; DeleteTask 2;
                AddTask "c" None] empty_store = [1; 2; 3]
  /\ ids (run [AddTask "a" None; AddTask "b" None; DeleteTask 2;
               AddTask "c" None] empty_store) = [1; 3].
Proof. split; reflexivity. Qed.

End Identity.

(** ** Adding, completing and deleting *)

Section Operations.

Lemma filter_none {A : Type} (P : A -> Prop) `{forall x, Decision (P x)}
    (l : list A) :
  (forall x, x ∈ l -> ~ P x) -> filter P l = [].
Proof.
  induction l as [|a l IH]; intros Hno; [done|].
  rewrite filter_cons_False by (apply Hno; left).
  apply IH. intros x Hx. apply Hno. by right.
Qed.

(** The primary key selects at most one row. *)
Lemma filter_unique_id (l : list task) (r : task) (i : Z) :
  NoDup (id <$> l) -> r ∈ l -> id r = i ->
  filter (fun x => id x = i) l = [r].
Proof.
  induction l as [|a l IH]; intros Hnd Hr Hid; [by inversion Hr|].
  rewrite fmap_cons in Hnd. apply NoDup_cons in Hnd as [Ha Hnd].
  apply elem_of_cons in Hr as [->|Hr].
  - rewrite filter_cons_True by done. f_equal.
    apply filter_none. intros x Hx Hxi. apply Ha.
    rewrite Hid, <- Hxi. by apply list_elem_of_fmap_2.
  - rewrite filter_cons_False; [by apply IH|].
    intros Hai. apply Ha. rewrite Hai, <- Hid. by apply list_elem_of_fmap_2.
Qed.

Lemma gone_step (i : Z) (o : op) (d : database) :
  gone i d -> gone i (db_after (step o d)).
Proof.
  intros (Hwf & Hi & Hc). split; [by apply wf_step|].
  destruct d as [t|].
  - destruct (step_cases o t Hwf) as (t' & -> & Hcases).
    unfold ids in *. simpl in *.
    destruct Hcases as [->|[(desc & due & _ & Hmax & ->)
                           |[(j & _ & _ & ->)|(j & _ & _ & ->)]]]; simpl.
    + done.
    + split; [|lia]. rewrite fmap_app. apply not_elem_of_app. split; [done|].
      simpl. intros ->%list_elem_of_singleton. lia.
    + by rewrite ids_update_completed.
    + split; [|done]. intros (r & -> & Hr)%list_elem_of_fmap.
      apply list_elem_of_filter in Hr as [_ Hr].
      apply Hi. by apply list_elem_of_fmap_2.
  - destruct (step_no_table o) as [->|[_ ->]]; [done|].
    split; [apply not_elem_of_nil | done].
Qed.

Lemma gone_run (i : Z) (ops : list op) (d : database) :
  gone i d -> gone i (run ops d).
Proof.
  unfold run. revert d. induction ops as [|o ops IH]; intros d H; [done|].
  simpl. by apply IH, gone_step.
Qed.

Lemma run_keeps_table (ops : list op) (t : tasks_table) :
  wf_table t -> exists t', run ops (Some t) = Some t'.
Proof.
  unfold run. revert t. induction ops as [|o ops IH]; intros t Hwf; simpl.
  - eauto.
  - pose proof (wf_step o (Some t) Hwf) as Hwf'.
    destruct (step_cases o t Hwf) as (t' & Heq & _). rewrite Heq in *.
    by apply IH.
Qed.

(** A call naming an id that no row has reports that no row matched and
    leaves the file as it was. *)
Lemma no_row_no_match (task_id : Z) (t : tasks_table) :
  fits_int64 task_id -> ~ has_row task_id t ->
  complete_task task_id (Some t)
  = mk_effect (Some t) [not_completed_msg task_id] (Py.Returns Py.None_)
  /\ delete_task task_id (Some t)
     = mk_effect (Some t) [not_found_msg task_id] (Py.Returns Py.None_).
Proof.
  intros Hfit Hno.
  rewrite (complete_task_eq _ _ Hfit), (delete_task_eq _ _ Hfit),
    (matching_none _ _ Hno). done.
Qed.

(** [complete_task] reports success exactly when some row has the id,
    whatever that row's [completed] was. *)
Lemma complete_task_success_iff (task_id : Z) (t : tasks_table) :
  fits_int64 task_id ->
  stdout (complete_task task_id (Some t)) = [completed_msg task_id]
  <-> has_row task_id t.
Proof.
  intros Hfit. rewrite (complete_task_eq _ _ Hfit), <- matching_pos.
  destruct (0 <? matching task_id t) eqn:E; simpl.
  - apply Z.ltb_lt in E. done.
  - apply Z.ltb_ge in E. split; [|lia].
    intros Heq. exfalso. injection Heq as Heq.
    unfold completed_msg, not_completed_msg in Heq.
    change (pretty task_id +:+ " not found or already completed."
            = pretty task_id +:+ " marked as completed!") in Heq.
    apply (inj (String.append (pretty task_id))) in Heq. discriminate.
Qed.

(** Completing a task that is already completed leaves the file as it
    was, and still reports a successful completion. *)
Lemma complete_task_again_unchanged (task_id : Z) (t : tasks_table) :
  fits_int64 task_id -> has_row task_id t ->
  (forall r, r ∈ rows t -> id r = task_id -> completed r = Some 1) ->
  complete_task task_id (Some t)
  = mk_effect (Some t) [completed_msg task_id] (Py.Returns Py.None_).
Proof.
  intros Hfit Hrow Hdone. rewrite (complete_task_eq _ _ Hfit).
  apply matching_pos, Z.ltb_lt in Hrow. rewrite Hrow.
  f_equal. f_equal. clear Hrow. destruct t as [l s]. cbn [rows seq] in *.
  f_equal. induction l as [|r l IH]; csimpl; [done|].
  rewrite IH by (intros; apply Hdone; [by right | done]). f_equal.
  destruct (id r =? task_id) eqn:E; [|done].
  apply Z.eqb_eq in E. unfold set_completed.
  rewrite <- (Hdone r (ltac:(by left)) E). by destruct r.
Qed.

(** The first rowid of an empty table is 1 whatever the AUTOINCREMENT
    entry below it, and with rows in the table the next rowid is above
    both the entry and the rows. *)
Example add_task_first_rowid :
  db_after (add_task "a" None (Some (mk_table [] (-5))))
  = Some (mk_table [mk_task 1 "a" None (Some 0)] 1)
  /\ db_after (add_task "a" None
                 (Some (mk_table [mk_task (-3) "x" None (Some 0)] (-5))))
     = Some (mk_table [mk_task (-3) "x" None (Some 0);
                       mk_task (-2) "a" None (Some 0)] (-2))
  /\ db_after (add_task "a" None
                 (Some (mk_table [mk_task 4 "x" None (Some 0)] 9)))
     = Some (mk_table [mk_task 4 "x" None (Some 0);
                       mk_task 10 "a" None (Some 0)] 10).
Proof. repeat split; reflexivity. Qed.




(** Within 64 bits [delete_task] does what is wanted of it.  On a
    well-formed table and for an id that fits a 64-bit integer: if a row
    has the id, [delete_task] removes that row and
    only it (the table before is the removed row together with the rows
    left, the AUTOINCREMENT entry stays), reports the deletion, and after
    any further calls [complete_task] and [delete_task] on that id report
    that no row matched and change nothing; if no row has the id,
    [delete_task] reports that no row matched and leaves the file as it
    was. *)
Theorem delete_task_removes_exactly_that_row (t : tasks_table)
    (task_id : Z) :
  wf_table t -> fits_int64 task_id ->
  (has_row task_id t ->
     exists (r : task) (t' : tasks_table),
       r ∈ rows t /\ id r = task_id
       /\ delete_task task_id (Some t)
          = mk_effect (Some t') [deleted_msg task_id] (Py.Returns Py.None_)
       /\ seq t' = seq t
       /\ rows t' = filter (fun x => id x <> task_id) (rows t)
       /\ rows t ≡ₚ r :: rows t'
       /\ forall ops : list op,
            complete_task task_id (run ops (Some t'))
            = mk_effect (run ops (Some t')) [not_completed_msg task_id]
                        (Py.Returns Py.None_)
            /\ delete_task task_id (run ops (Some t'))
               = mk_effect (run ops (Some t')) [not_found_msg task_id]
                           (Py.Returns Py.None_))
  /\ (~ has_row task_id t ->
      delete_task task_id (Some t)
      = mk_effect (Some t) [not_found_msg task_id] (Py.Returns Py.None_)).
Proof.
  intros Hwf Hfit. split; [|by apply no_row_no_match].
  intros Hrow. pose proof Hrow as (r & Hr & Hid).
  exists r, (mk_table (filter (fun x => id x <> task_id) (rows t)) (seq t)).
  pose proof Hwf as (Hnd & Hall & Hseq).
  split; [done|]. split; [done|]. split.
  { rewrite (delete_task_eq _ _ Hfit).
    apply matching_pos, Z.ltb_lt in Hrow. by rewrite Hrow. }
  split; [done|]. split; [done|]. split.
  { cbn [rows].
    rewrite <- (filter_app_complement (fun x => id x = task_id) (rows t)) at 1.
    by rewrite (filter_unique_id (rows t) r task_id). }
  intros ops.
  assert (gone task_id
            (Some (mk_table (filter (fun x => id x <> task_id) (rows t))
                            (seq t)))) as Hgone.
  { split; [|split].
    - apply (wf_step (DeleteTask task_id) (Some t)) in Hwf.
      cbn [step] in Hwf. rewrite (delete_task_eq _ _ Hfit) in Hwf.
      apply matching_pos, Z.ltb_lt in Hrow. by rewrite Hrow in Hwf.
    - unfold ids. simpl. intros (x & Hx & Hin)%list_elem_of_fmap.
      apply list_elem_of_filter in Hin as [Hne _]. congruence.
    - simpl. rewrite Forall_forall in Hall. specialize (Hall r Hr). lia. }
  pose proof Hgone as (Hwf' & _).
  apply (gone_run task_id ops) in Hgone as (_ & Hno & _).
  destruct (run_keeps_table ops _ Hwf') as (t'' & Heq). rewrite Heq in *.
  apply no_row_no_match; [done|]. by rewrite has_row_ids.
Qed.

Lemma delete_task_removes_exactly_that_row_witness :
  delete_task 2 (Some (mk_table [mk_task 1 "a" None (Some 0);
                                 mk_task 2 "b" None (Some 0)] 2))
  = mk_effect (Some (mk_table [mk_task 1 "a" None (Some 0)] 2))
              ["Task 2 deleted successfully!"] (Py.Returns Py.None_)
  /\ delete_task 5 (Some (mk_table [mk_task 1 "a" None (Some 0);
                                    mk_task 2 "b" None (Some 0)] 2))
     = mk_effect (Some (mk_table [mk_task 1 "a" None (Some 0);
                                  mk_task 2 "b" None (Some 0)] 2))
                 ["Task 5 not found."] (Py.Returns Py.None_).
Proof.
  assert (wf_table (mk_table [mk_task 1 "a" None (Some 0);
                              mk_task 2 "b" None (Some 0)] 2)) as Hwf.
  { exact (wf_run [AddTask "a" None; AddTask "b" None] empty_store
             wf_empty_table). }
  assert (fits_int64 2) as Hfit2 by (split; discriminate).
  assert (fits_int64 5) as Hfit5 by (split; discriminate).
  split.
  - destruct (delete_task_removes_exactly_that_row _ 2 Hwf Hfit2)
      as [Hex _].
    destruct Hex as (r & [l s] & _ & _ & Heq & Hseq & Hrows & _).
    { apply matching_pos. reflexivity. }
    simpl in Hseq, Hrows. subst l s. exact Heq.
  - destruct (delete_task_removes_exactly_that_row _ 5 Hwf Hfit5)
      as [_ Hno].
    apply Hno. intros H%matching_pos. discriminate H.
Defined.

(** C6, where the program departs from it.  An id above the largest
    64-bit integer is the id of no row, and the task-id prompt hands it
    on; but [delete_task] on it, on any existing table, does not report
    that no task was found: the id cannot be bound to the statement,
    [OverflowError] is raised, nothing is printed, and no handler of
    [delete_task] or of its caller catches it.  The file is left as it
    was. *)
Theorem delete_task_on_an_id_too_large_raises :
  (forall (t : tasks_table) (task_id : Z),
     MAX_ROWID < task_id ->
     delete_task task_id (Some t)
     = mk_effect (Some t) [] (Py.Raises Py.OverflowError))
  /\ get_valid_task_id_input "Enter the ID of the task to delete: "
       ["9223372036854775808"]
     = mk_io (Py.Returns 9223372036854775808) []
             ["Enter the ID of the task to delete: "]
  /\ run [AddTask "a" None] empty_store
     = Some (mk_table [mk_task 1 "a" None (Some 0)] 1)
  /\ matching 9223372036854775808 (mk_table [mk_task 1 "a" None (Some 0)] 1)
     = 0
  /\ delete_task 9223372036854775808
       (Some (mk_table [mk_task 1 "a" None (Some 0)] 1))
     = mk_effect (Some (mk_table [mk_task 1 "a" None (Some 0)] 1)) []
                 (Py.Raises Py.OverflowError)
  /\ delete_task 9223372036854775807
       (Some (mk_table [mk_task 1 "a" None (Some 0)] 1))
     = mk_effect (Some (mk_table [mk_task 1 "a" None (Some 0)] 1))
                 ["Task 9223372036854775807 not found."]
                 (Py.Returns Py.None_).
Proof.
  split; [|repeat split; reflexivity].
  intros t task_id Hbig. apply delete_task_overflow.
  unfold fits_int64. lia.
Qed.

(** C7.  On a well-formed table with a row of the given id,
    [complete_task] keeps the number and order of the rows and the
    AUTOINCREMENT entry; each row keeps its id, description and due date;
    the row with the given id gets [completed] 1 and every other row is
    the same row as before.  And whatever the store, a call that is not
    [complete_task] leaves only rows that were there unchanged before,
    or rows whose id no row had. *)
Theorem complete_task_changes_only_completed (t : tasks_table)
    (task_id : Z) :
  wf_table t -> has_row task_id t ->
  (exists t' : tasks_table,
     db_after (complete_task task_id (Some t)) = Some t'
     /\ seq t' = seq t
     /\ length (rows t') = length (rows t)
     /\ forall (i : nat) (r : task),
          rows t !! i = Some r ->
          exists r' : task,
            rows t' !! i = Some r'
            /\ id r' = id r
            /\ description r' = description r
            /\ due_date r' = due_date r
            /\ (id r = task_id -> completed r' = Some 1)
            /\ (id r <> task_id -> r' = r))
  /\ (forall (o : op) (d : database),
        (forall i : Z, o <> CompleteTask i) ->
        forall r' : task,
          r' ∈ all_rows (db_after (step o d)) ->
          r' ∈ all_rows d \/ id r' ∉ ids d).
Proof.
  intros Hwf Hrow. split.
  - assert (fits_int64 task_id) as Hfit.
    { destruct Hrow as (r & Hr & <-). destruct Hwf as (_ & Hall & Hseq).
      rewrite Forall_forall in Hall. specialize (Hall r Hr).
      unfold fits_int64, MIN_INT64. lia. }
    rewrite (complete_task_eq _ _ Hfit).
    apply matching_pos, Z.ltb_lt in Hrow. rewrite Hrow.
    eexists. split; [done|]. cbn [rows seq]. split; [done|].
    split; [by rewrite length_fmap|].
    intros i r Hi. rewrite list_lookup_fmap, Hi. simpl.
    eexists. split; [done|].
    destruct (id r =? task_id) eqn:E.
    + apply Z.eqb_eq in E. simpl. by repeat split.
    + apply Z.eqb_neq in E. by repeat split.
  - intros o d Hother r' Hr'.
    destruct o as [|description due_date|show_completed|i|i].
    + cbn [step] in Hr'. rewrite create_table_db in Hr'.
      destruct d; [by left | by inversion Hr'].
    + destruct d as [t0|]; [|by inversion Hr'].
      cbn [step] in Hr'. rewrite add_task_eq in Hr'.
      destruct (MAX_ROWID <=? largest_rowid t0); [by left|].
      simpl in Hr'. apply elem_of_app in Hr' as [Hr'|Hr']; [by left|].
      apply list_elem_of_singleton in Hr' as ->. right. unfold ids. simpl.
      intros (r & Hid & Hr)%list_elem_of_fmap.
      pose proof (largest_rowid_above t0) as [_ Hall].
      rewrite Forall_forall in Hall. specialize (Hall r Hr). lia.
    + cbn [step] in Hr'. rewrite view_tasks_db in Hr'. by left.
    + by destruct (Hother i).
    + destruct d as [t0|].
      2: { rewrite no_table_no_change in Hr' by done. by inversion Hr'. }
      cbn [step] in Hr'. left.
      destruct (decide (MIN_INT64 <= i <= MAX_ROWID)) as [Hfit|Hfit].
      * rewrite (delete_task_eq _ _ Hfit) in Hr'.
        destruct (0 <? matching i t0); [|done].
        simpl in Hr'. by apply list_elem_of_filter in Hr' as [_ Hr'].
      * by rewrite (delete_task_overflow _ _ Hfit) in Hr'.
Qed.

Lemma complete_task_changes_only_completed_witness :
  db_after (complete_task 2
              (Some (mk_table [mk_task 1 "a" None (Some 0);
                               mk_task 2 "b" (Some "2025-12-31") (Some 0)] 2)))
  = Some (mk_table [mk_task 1 "a" None (Some 0);
                    mk_task 2 "b" (Some "2025-12-31") (Some 1)] 2)
  /\ exists t' : tasks_table,
       db_after (complete_task 2
                   (Some (mk_table [mk_task 1 "a" None (Some 0);
                                    mk_task 2 "b" (Some "2025-12-31")
                                            (Some 0)] 2)))
       = Some t'
       /\ seq t' = 2 /\ length (rows t') = 2%nat.
Proof.
  split; [reflexivity|].
  assert (wf_table (mk_table [mk_task 1 "a" None (Some 0);
                              mk_task 2 "b" (Some "2025-12-31") (Some 0)] 2))
    as Hwf.
  { exact (wf_run [AddTask "a" None; AddTask "b" (Some "2025-12-31")]
             empty_store wf_empty_table). }
  destruct (complete_task_changes_only_completed _ 2 Hwf) as [Hex _].
  { apply matching_pos. reflexivity. }
  destruct Hex as (t' & Heq & Hseq & Hlen & _). eauto.
Defined.

(** C1, where the program departs from it.  The table holds one task,
    already completed.  Completing it again selects that row: the row
    count is 1, the call commits and prints the message of a successful
    completion, not the one for a task not found or already completed.
    The file itself is left as it was. *)
Theorem complete_task_again_reports_success :
  completed <$> rows (mk_table [mk_task 1 "a" None (Some 1)] 1) = [Some 1]
  /\ update_completed 1 (Some (mk_table [mk_task 1 "a" None (Some 1)] 1))
     = Ok (Some (mk_table [mk_task 1 "a" None (Some 1)] 1), 1)
  /\ complete_task 1 (Some (mk_table [mk_task 1 "a" None (Some 1)] 1))
     = mk_effect (Some (mk_table [mk_task 1 "a" None (Some 1)] 1))
                 ["Task 1 marked as completed!"] (Py.Returns Py.None_)
  /\ run [AddTask "a" None; CompleteTask 1] empty_store
     = Some (mk_table [mk_task 1 "a" None (Some 1)] 1).
Proof. repeat split; reflexivity. Qed.

End Operations.

(** ** The prompts *)

Section Prompts.

Lemma not_positive_cases (line : string) :
  (forall m, ~ parses_as_positive line m) ->
  Py.int (Py.strip line) = None
  \/ exists m, Py.int (Py.strip line) = Some m /\ (m <=? 0) = true.
Proof.
  intros Hno. destruct (Py.int (Py.strip line)) as [m|] eqn:E; [|by left].
  right. exists m. split; [done|]. apply Z.leb_le.
  destruct (decide (m <= 0)) as [|Hpos]; [done|].
  destruct (Hno m). unfold parses_as_positive. split; [done | lia].
Qed.

Lemma task_id_prompt_rejects (prompt line : string) (stdin : list string) :
  (forall m, ~ parses_as_positive line m) ->
  get_valid_task_id_input prompt (line :: stdin)
  = mk_io (result_of (get_valid_task_id_input prompt stdin))
          (stdin_left (get_valid_task_id_input prompt stdin))
          (prompt :: id_rejection line
             :: printed (get_valid_task_id_input prompt stdin)).
Proof.
  intros Hno. cbn [get_valid_task_id_input]. unfold id_rejection.
  destruct (not_positive_cases line Hno) as [->|(m & -> & ->)]; done.
Qed.

Lemma task_id_prompt_accepts (prompt line : string) (stdin : list string)
    (n : Z) :
  parses_as_positive line n ->
  get_valid_task_id_input prompt (line :: stdin)
  = mk_io (Py.Returns n) stdin [prompt].
Proof.
  intros [Hint Hpos]. cbn [get_valid_task_id_input]. rewrite Hint.
  apply Z.leb_gt in Hpos. by rewrite Hpos.
Qed.

Lemma task_id_prompt_loop (prompt : string) (rejected : list string) :
  Forall (fun line => forall m, ~ parses_as_positive line m) rejected ->
  (forall (accepted : string) (n : Z) (rest : list string),
     parses_as_positive accepted n ->
     get_valid_task_id_input prompt (rejected ++ accepted :: rest)
     = mk_io (Py.Returns n) rest (id_prompts prompt rejected))
  /\ get_valid_task_id_input prompt rejected
     = mk_io (Py.Raises Py.EOFError) [] (id_prompts prompt rejected).
Proof.
  induction 1 as [|line rejected Hline _ [IH1 IH2]].
  - split; [|done]. intros accepted n rest Hacc.
    by apply task_id_prompt_accepts.
  - split.
    + intros accepted n rest Hacc.
      rewrite <- app_comm_cons, (task_id_prompt_rejects _ _ _ Hline).
      by rewrite (IH1 _ _ _ Hacc).
    + rewrite (task_id_prompt_rejects _ _ _ Hline). by rewrite IH2.
Qed.

(** C9.  The task-id prompt takes a line exactly when, stripped, it
    reads as an integer above 0, and then returns that integer: on a
    single line of input it returns [n] if and only if the line reads as
    the positive integer [n]; it turns down, with a message and a new
    prompt each, every line that does not, and returns the first that
    does, leaving the rest of the input; when no line does it keeps
    prompting until the input ends.  It turns down "0", "-5" and "abc"
    and takes "1" and "42" as 1 and 42. *)
Theorem task_id_prompt_takes_exactly_positive_integers :
  (forall (prompt line : string) (n : Z),
     result_of (get_valid_task_id_input prompt [line]) = Py.Returns n
     <-> parses_as_positive line n)
  /\ (forall (prompt : string) (rejected : list string) (accepted : string)
             (n : Z) (rest : list string),
        Forall (fun line => forall m, ~ parses_as_positive line m) rejected ->
        parses_as_positive accepted n ->
        get_valid_task_id_input prompt (rejected ++ accepted :: rest)
        = mk_io (Py.Returns n) rest (id_prompts prompt rejected))
  /\ (forall (prompt : string) (rejected : list string),
        Forall (fun line => forall m, ~ parses_as_positive line m) rejected ->
        get_valid_task_id_input prompt rejected
        = mk_io (Py.Raises Py.EOFError) [] (id_prompts prompt rejected))
  /\ (forall m, ~ parses_as_positive "0" m)
  /\ (forall m, ~ parses_as_positive "-5" m)
  /\ (forall m, ~ parses_as_positive "abc" m)
  /\ parses_as_positive "1" 1
  /\ parses_as_positive "42" 42.
Proof.
  split; [|split; [|split]].
  - intros prompt line n. split.
    + cbn [get_valid_task_id_input]. unfold parses_as_positive.
      destruct (Py.int (Py.strip line)) as [m|]; [|done].
      destruct (m <=? 0) eqn:E; [done|]. apply Z.leb_gt in E.
      simpl. intros [= ->]. done.
    + intros H. by rewrite (task_id_prompt_accepts _ _ _ _ H).
  - intros prompt rejected accepted n rest Hrej Hacc.
    by apply task_id_prompt_loop.
  - intros prompt rejected Hrej. by apply task_id_prompt_loop.
  - unfold parses_as_positive.
    repeat split; try reflexivity; intros m [Hint Hpos];
      vm_compute in Hint; try discriminate Hint.
    + injection Hint as <-. lia.
    + injection Hint as <-. lia.
Qed.

Lemma task_id_prompt_takes_exactly_positive_integers_witness :
  get_valid_task_id_input "Enter the ID of the task to complete: "
    ["0"; "-5"; "abc"; " 42 "; "1"]
  = mk_io (Py.Returns 42) ["1"]
      ["Enter the ID of the task to complete: "; id_not_positive;
       "Enter the ID of the task to complete: "; id_not_positive;
       "Enter the ID of the task to complete: "; id_not_a_number;
       "Enter the ID of the task to complete: "].
Proof.
  destruct task_id_prompt_takes_exactly_positive_integers
    as (_ & Hloop & _ & H0 & H5 & Habc & _).
  apply (Hloop _ ["0"; "-5"; "abc"] " 42 " 42 ["1"]).
  - repeat constructor; assumption.
  - split; reflexivity.
Defined.

Lemma date_prompt_step (prompt line : string) (stdin : list string) :
  get_valid_date_input prompt (line :: stdin)
  = match date_taken line with
    | Some due => mk_io (Py.Returns due) stdin [prompt]
    | None =>
        mk_io (result_of (get_valid_date_input prompt stdin))
              (stdin_left (get_valid_date_input prompt stdin))
              (prompt :: date_error
                 :: printed (get_valid_date_input prompt stdin))
    end.
Proof.
  cbn [get_valid_date_input]. unfold date_taken.
  destruct (Py.is_empty (Py.strip line)); [done|].
  by destruct (Py.strptime_Ymd (Py.strip line)).
Qed.

(** The date prompt turns down, with its message and a new prompt each,
    the lines that are neither blank nor read by [strptime], and returns
    for the first other line; when there is none it prompts until the
    input ends. *)
Lemma date_prompt_loop (prompt : string) (rejected : list string) :
  Forall (fun line => date_taken line = None) rejected ->
  (forall (accepted : string) (due : option string) (rest : list string),
     date_taken accepted = Some due ->
     get_valid_date_input prompt (rejected ++ accepted :: rest)
     = mk_io (Py.Returns due) rest (date_prompts prompt rejected))
  /\ get_valid_date_input prompt rejected
     = mk_io (Py.Raises Py.EOFError) [] (date_prompts prompt rejected).
Proof.
  induction 1 as [|line rejected Hline _ [IH1 IH2]].
  - split; [|done]. intros accepted due rest Hacc.
    by rewrite app_nil_l, date_prompt_step, Hacc.
  - split.
    + intros accepted due rest Hacc.
      rewrite <- app_comm_cons, date_prompt_step, Hline.
      by rewrite (IH1 _ _ _ Hacc).
    + by rewrite date_prompt_step, Hline, IH2.
Qed.

(** The inputs the spec lists behave as it says. *)
Lemma date_prompt_listed_inputs :
  date_taken "2025-13-01" = None
  /\ date_taken "31-12-2025" = None
  /\ date_taken "not-a-date" = None
  /\ date_taken EmptyString = Some None
  /\ date_taken "2025-01-01" = Some (Some "2025-01-01")
  /\ get_valid_date_input "Due: "
       ["2025-13-01"; "31-12-2025"; "not-a-date"; "2025-01-01"]
     = mk_io (Py.Returns (Some "2025-01-01")) []
         ["Due: "; date_error; "Due: "; date_error; "Due: "; date_error;
          "Due: "].
Proof. repeat split; reflexivity. Qed.

Lemma isdigit_cases (c : ascii) :
  Py.isdigit c = true ->
  c ∈ ["0"; "1"; "2"; "3"; "4"; "5"; "6"; "7"; "8"; "9"]%char.
Proof.
  destruct c as [[] [] [] [] [] [] [] []]; intros H;
    try discriminate H; repeat constructor.
Qed.

Ltac digit_cases H :=
  apply isdigit_cases in H;
  repeat (apply elem_of_cons in H as [->|H]); [..|by inversion H].

Ltac out_of_range Hb :=
  exfalso;
  match type of Hb with
  | context [Py.two_digits ?a ?b] =>
      let v := eval vm_compute in (Py.two_digits a b) in
      change (Py.two_digits a b) with v in Hb
  end; lia.

Lemma match_m_two_digits (m1 m2 : ascii) (r : string) :
  Py.isdigit m1 = true -> Py.isdigit m2 = true ->
  1 <= Py.two_digits m1 m2 <= 12 ->
  exists tl, Py.match_m (String m1 (String m2 r))
             = (Py.two_digits m1 m2, r) :: tl.
Proof.
  intros H1 H2 Hb. digit_cases H1; digit_cases H2;
    first [ by out_of_range Hb | by (eexists; reflexivity) ].
Qed.

Lemma match_d_two_digits (d1 d2 : ascii) (r : string) :
  Py.isdigit d1 = true -> Py.isdigit d2 = true ->
  1 <= Py.two_digits d1 d2 <= 31 ->
  exists tl, Py.match_d (String d1 (String d2 r))
             = (Py.two_digits d1 d2, r) :: tl.
Proof.
  intros H1 H2 Hb. digit_cases H1; digit_cases H2;
    first [ by out_of_range Hb | by (eexists; reflexivity) ].
Qed.

Lemma match_Y_digits (a b c d : ascii) (r : string) :
  Py.isdigit a = true -> Py.isdigit b = true -> Py.isdigit c = true ->
  Py.isdigit d = true ->
  Py.match_Y (String a (String b (String c (String d r))))
  = [(1000 * Py.digit_value a + 100 * Py.digit_value b
      + 10 * Py.digit_value c + Py.digit_value d, r)].
Proof. intros Ha Hb Hc Hd. unfold Py.match_Y. by rewrite Ha, Hb, Hc, Hd. Qed.

Lemma valid_date_bounds (y m d : Z) :
  Py.valid_date y m d = true -> 1 <= m <= 12 /\ 1 <= d <= 31.
Proof.
  unfold Py.valid_date. rewrite !andb_true_iff, !Z.leb_le.
  intros [[[[[_ _] ?] ?] ?] Hd]. split; [lia|]. split; [lia|].
  unfold Py.days_in_month in Hd.
  destruct (m =? 2); [destruct (Py.is_leap y); lia|].
  destruct (_ || _); lia.
Qed.

Lemma isdigit_not_space (c : ascii) : Py.isdigit c = true -> Py.isspace c = false.
Proof. intros H. digit_cases H; reflexivity. Qed.

(** Every line of the form YYYY-MM-DD that names a date of the calendar
    is read by [strptime], and stripping leaves it as it is. *)
Lemma strptime_YYYY_MM_DD (s : string) :
  is_YYYY_MM_DD s = true ->
  Py.strip s = s /\ exists ymd, Py.strptime_Ymd s = Some ymd.
Proof.
  intros H.
  destruct s as [|y1 [|y2 [|y3 [|y4 [|s1 [|m1 [|m2 [|s2 [|d1 [|d2 [|? ?]]]]]]]]]]];
    try discriminate H.
  cbn [is_YYYY_MM_DD] in H. rewrite !andb_true_iff in H.
  destruct H as [[[[[[[[[[Hs1 Hs2] Hy1] Hy2] Hy3] Hy4] Hm1] Hm2] Hd1] Hd2] Hv].
  apply Ascii.eqb_eq in Hs1, Hs2. subst s1 s2.
  split.
  - unfold Py.strip. cbn [Py.lstrip]. rewrite (isdigit_not_space _ Hy1).
    cbn [Py.rstrip]. rewrite (isdigit_not_space _ Hd2). cbn [Py.is_empty andb].
    rewrite !andb_false_r. done.
  - destruct (valid_date_bounds _ _ _ Hv) as [Hm Hd].
    destruct (match_m_two_digits m1 m2
                (String "-" (String d1 (String d2 EmptyString))) Hm1 Hm2 Hm)
      as [tlm Em].
    destruct (match_d_two_digits d1 d2 EmptyString Hd1 Hd2 Hd) as [tld Ed].
    unfold Py.strptime_Ymd, Py.match_Ymd.
    rewrite (match_Y_digits _ _ _ _ _ Hy1 Hy2 Hy3 Hy4).
    cbn -[Py.match_m Py.match_d Py.valid_date Py.digit_value Py.two_digits
          Z.mul Z.add].
    rewrite Em.
    cbn -[Py.match_m Py.match_d Py.valid_date Py.digit_value Py.two_digits
          Z.mul Z.add].
    rewrite Ed.
    cbn -[Py.match_m Py.match_d Py.valid_date Py.digit_value Py.two_digits
          Z.mul Z.add].
    rewrite Hv. eauto.
Qed.

(** So the date prompt takes every such line, and returns it. *)
Lemma date_prompt_takes_YYYY_MM_DD (s : string) :
  is_YYYY_MM_DD s = true -> date_taken s = Some (Some s).
Proof.
  intros H. destruct (strptime_YYYY_MM_DD s H) as [Hstrip [ymd Hparse]].
  unfold date_taken. rewrite Hstrip, Hparse.
  destruct s; [discriminate H | done].
Qed.

(** C8, where the program departs from it.  The date prompt takes
    "2025-1-5": [strptime] reads a month and a day of one digit, so the
    line is returned, as typed, as the due date, although it is not of
    the form YYYY-MM-DD.  Stored like that, it sorts as text after
    "2025-10-01". *)
Theorem date_prompt_takes_one_digit_month_and_day :
  (forall (prompt : string) (rest : list string),
     get_valid_date_input prompt ("2025-1-5" :: rest)
     = mk_io (Py.Returns (Some "2025-1-5")) rest [prompt])
  /\ Py.strptime_Ymd "2025-1-5" = Some (2025, 1, 5)
  /\ is_YYYY_MM_DD "2025-1-5" = false
  /\ is_YYYY_MM_DD "2025-01-05" = true
  /\ fetch_tasks false
       (run [AddTask "October" (Some "2025-10-01");
             AddTask "September" (Some "2025-9-01")] empty_store)
     = Ok [mk_task 1 "October" (Some "2025-10-01") (Some 0);
           mk_task 2 "September" (Some "2025-9-01") (Some 0)].
Proof. repeat split; reflexivity. Qed.

End Prompts.


(** ** The menu *)

Section Menu.

Lemma date_taken_ok (line : string) (due : option string) :
  date_taken line = Some due -> due_date_ok due.
Proof.
  unfold date_taken.
  destruct (Py.is_empty (Py.strip line)) eqn:E; [by intros [= <-]|].
  destruct (Py.strptime_Ymd (Py.strip line)) as [ymd|] eqn:P; [|done].
  intros [= <-]. simpl. eauto.
Qed.

(** What the date prompt leaves: it returns a due date that is none or
    readable, having read at least one line; or the input has ended. *)
Lemma date_prompt_result (prompt : string) (stdin : list string) :
  match result_of (get_valid_date_input prompt stdin) with
  | Py.Returns due =>
      due_date_ok due
      /\ (length (stdin_left (get_valid_date_input prompt stdin))
          < length stdin)%nat
  | Py.Raises ex =>
      ex = Py.EOFError /\ stdin_left (get_valid_date_input prompt stdin) = []
      /\ Forall (fun line => date_taken line = None) stdin
  end.
Proof.
  induction stdin as [|line stdin IH]; [done|].
  rewrite date_prompt_step. destruct (date_taken line) as [due|] eqn:E.
  - cbn [result_of stdin_left length]. split; [by eapply date_taken_ok | lia].
  - cbn [result_of stdin_left length].
    destruct (result_of (get_valid_date_input prompt stdin)).
    + destruct IH. split; [done | lia].
    + destruct IH as (? & ? & ?). by repeat split; [..|constructor].
Qed.

Lemma task_id_prompt_result (prompt : string) (stdin : list string) :
  match result_of (get_valid_task_id_input prompt stdin) with
  | Py.Returns task_id =>
      0 < task_id
      /\ (length (stdin_left (get_valid_task_id_input prompt stdin))
          < length stdin)%nat
  | Py.Raises ex =>
      ex = Py.EOFError
      /\ stdin_left (get_valid_task_id_input prompt stdin) = []
      /\ Forall (fun line => forall m, ~ parses_as_positive line m) stdin
  end.
Proof.
  induction stdin as [|line stdin IH]; [done|].
  cbn [get_valid_task_id_input].
  destruct (Py.int (Py.strip line)) as [n|] eqn:E.
  - destruct (n <=? 0) eqn:L.
    + cbn [result_of stdin_left length].
      destruct (result_of (get_valid_task_id_input prompt stdin)).
      * destruct IH. split; [done | lia].
      * destruct IH as (? & ? & ?). repeat split; [done..|].
        constructor; [|done]. intros m [Hm Hpos].
        apply Z.leb_le in L. congruence || (rewrite E in Hm; simplify_eq; lia).
    + apply Z.leb_gt in L. cbn [result_of stdin_left length]. split; lia.
  - cbn [result_of stdin_left length].
    destruct (result_of (get_valid_task_id_input prompt stdin)).
    + destruct IH. split; [done | lia].
    + destruct IH as (? & ? & ?). repeat split; [done..|].
      constructor; [|done]. intros m [Hm _]. congruence.
Qed.

(** A storage call returns [None], or raises [OverflowError]. *)
Lemma outcome_step (o : op) (d : database) :
  outcome (step o d) = Py.Returns Py.None_
  \/ outcome (step o d) = Py.Raises Py.OverflowError.
Proof.
  destruct o as [|description due_date|show_completed|task_id|task_id];
    cbn [step].
  - left. by destruct d.
  - left. unfold add_task, connect_db.
    by destruct (insert_task description due_date (txn (connect d))).
  - left. unfold view_tasks, connect_db.
    by destruct (fetch_tasks show_completed (txn (connect d))) as [[|??]|?].
  - unfold complete_task, connect_db.
    destruct (prepare (txn (connect d))); [|by left].
    destruct (bind_int task_id) as [i|]; [|by right]. left.
    destruct (update_completed i (txn (connect d))) as [[d' n]|?]; [|done].
    by destruct (0 <? n).
  - unfold delete_task, connect_db.
    destruct (prepare (txn (connect d))); [|by left].
    destruct (bind_int task_id) as [i|]; [|by right]. left.
    destruct (delete_where_id i (txn (connect d))) as [[d' n]|?]; [|done].
    by destruct (0 <? n).
Qed.

(** What comes of a turn once it makes the storage call [o]. *)
Lemma after_call_step (o : op) (d : database) (out rest : list string) :
  after_call (step o d) out rest
  = Again (db_after (step o d)) (out ++ stdout (step o d)) rest
  \/ after_call (step o d) out rest
     = Stop (db_after (step o d)) (out ++ stdout (step o d)) rest
            (Py.Raises Py.OverflowError).
Proof.
  unfold after_call. destruct (outcome_step o d) as [->| ->]; auto.
Qed.

(** A turn of the menu reads at least one line when the loop goes on,
    makes at most one storage call, with checked arguments, and leaves
    the loop only in one of three ways. *)
Lemma menu_turn_spec (stdin : list string) (d : database) :
  (exists ops, turn_file (menu_turn stdin d) = run ops d
               /\ Forall menu_op ops /\ (length ops <= 1)%nat)
  /\ match menu_turn stdin d with
     | Again _ _ rest => (length rest < length stdin)%nat
     | Stop d' out rest how =>
         ends_properly (mk_session d' out rest how)
     end.
Proof.
  assert (forall o out rest,
    menu_op o -> (length rest < length stdin)%nat ->
    (exists ops, turn_file (after_call (step o d) out rest) = run ops d
                 /\ Forall menu_op ops /\ (length ops <= 1)%nat)
    /\ match after_call (step o d) out rest with
       | Again _ _ rest => (length rest < length stdin)%nat
       | Stop d' out rest how => ends_properly (mk_session d' out rest how)
       end) as Hcall.
  { intros o out rest Ho Hlen. split.
    - exists [o]. destruct (after_call_step o d out rest) as [->| ->];
        repeat split; auto.
    - destruct (after_call_step o d out rest) as [->| ->]; [done|].
      right. by right. }
  assert (exists ops, d = run ops d /\ Forall menu_op ops
                      /\ (length ops <= 1)%nat) as Hnone.
  { exists []. repeat split; [constructor | simpl; lia]. }
  unfold menu_turn. destruct stdin as [|line rest].
  { split; [done|]. right. left. done. }
  destruct (String.eqb (Py.strip line) "1").
  { destruct rest as [|line' rest'].
    { split; [done|]. right. left. done. }
    destruct (negb (Py.is_empty (Py.strip line'))) eqn:Hdesc.
    - pose proof (date_prompt_result due_date_prompt rest') as Hr.
      destruct (result_of (get_valid_date_input due_date_prompt rest'))
        as [due|ex].
      + destruct Hr as [Hdue Hlen].
        apply (Hcall (AddTask (Py.strip line') due)).
        * split; [|done]. by apply negb_true_iff.
        * simpl. lia.
      + destruct Hr as (-> & -> & _). split; [done|]. right. left. done.
    - split; [done|]. simpl. lia. }
  destruct (String.eqb (Py.strip line) "2").
  { apply (Hcall (ViewTasks false)); [done | simpl; lia]. }
  destruct (String.eqb (Py.strip line) "3").
  { apply (Hcall (ViewTasks true)); [done | simpl; lia]. }
  destruct (String.eqb (Py.strip line) "4").
  { unfold with_task_id.
    pose proof (task_id_prompt_result complete_prompt rest) as Hr.
    destruct (result_of (get_valid_task_id_input complete_prompt rest))
      as [task_id|ex].
    - destruct Hr as [Hpos Hlen].
      apply (Hcall (CompleteTask task_id)); [done | simpl; lia].
    - destruct Hr as (-> & -> & _). split; [done|]. right. left. done. }
  destruct (String.eqb (Py.strip line) "5").
  { unfold with_task_id.
    pose proof (task_id_prompt_result delete_prompt rest) as Hr.
    destruct (result_of (get_valid_task_id_input delete_prompt rest))
      as [task_id|ex].
    - destruct Hr as [Hpos Hlen].
      apply (Hcall (DeleteTask task_id)); [done | simpl; lia].
    - destruct Hr as (-> & -> & _). split; [done|]. right. left. done. }
  destruct (String.eqb (Py.strip line) "6").
  { split; [done|]. left. split; [done|]. cbn [screen]. apply last_snoc. }
  split; [done|]. simpl. lia.
Qed.

Lemma run_app (ops1 ops2 : list op) (d : database) :
  run (ops1 ++ ops2) d = run ops2 (run ops1 d).
Proof. unfold run. apply fold_left_app. Qed.

Lemma ends_properly_after (out : list string) (s : session) :
  ends_properly s ->
  ends_properly (mk_session (file s) (out ++ screen s) (unread s) (ending s)).
Proof.
  intros [[He Hl]|[[He Hu]|He]].
  - left. split; [done|]. cbn [screen]. by rewrite last_app, Hl.
  - right. left. done.
  - right. right. done.
Qed.

(** The loop of [main] makes storage calls with checked arguments, one
    after the other, and ends in one of the three ways. *)
Lemma main_loop_spec (fuel : nat) (stdin : list string) (d : database)
    (s : session) :
  main_loop fuel stdin d = Some s ->
  (exists ops, file s = run ops d /\ Forall menu_op ops) /\ ends_properly s.
Proof.
  revert stdin d s. induction fuel as [|fuel IH]; intros stdin d s; [done|].
  cbn [main_loop]. pose proof (menu_turn_spec stdin d) as [Hops Hturn].
  destruct (menu_turn stdin d) as [d' out rest|d' out rest how].
  - destruct (main_loop fuel rest d') as [s'|] eqn:L; [|done].
    intros [= <-]. destruct (IH _ _ _ L) as [(ops2 & Hfile & Hops2) Hend].
    destruct Hops as (ops1 & Hd' & Hops1 & _). simpl in Hd'. split.
    + exists (ops1 ++ ops2). rewrite run_app, <- Hd'. split; [done|].
      by apply Forall_app.
    + by apply ends_properly_after.
  - intros [= <-]. split; [|done].
    destruct Hops as (ops & Hd' & Hops & _). eauto.
Qed.

(** One turn more than there are lines is enough. *)
Lemma main_loop_enough (fuel : nat) (stdin : list string) (d : database) :
  (length stdin < fuel)%nat -> exists s, main_loop fuel stdin d = Some s.
Proof.
  revert stdin d. induction fuel as [|fuel IH]; intros stdin d Hlen; [lia|].
  cbn [main_loop]. pose proof (menu_turn_spec stdin d) as [_ Hturn].
  destruct (menu_turn stdin d) as [d' out rest|d' out rest how]; [|eauto].
  destruct (IH rest d') as [s' ->]; [lia | eauto].
Qed.

(** More turns than needed change nothing. *)
Lemma main_loop_more_fuel (fuel fuel' : nat) (stdin : list string)
    (d : database) (s : session) :
  main_loop fuel stdin d = Some s -> (fuel <= fuel')%nat ->
  main_loop fuel' stdin d = Some s.
Proof.
  revert fuel' stdin d s.
  induction fuel as [|fuel IH]; intros fuel' stdin d s; [done|].
  destruct fuel' as [|fuel']; [lia|]. cbn [main_loop].
  destruct (menu_turn stdin d) as [d' out rest|d' out rest how]; [|done].
  destruct (main_loop fuel rest d') as [s'|] eqn:L; [|done].
  intros [= <-] Hle. by rewrite (IH fuel' _ _ _ L) by lia.
Qed.

Lemma create_table_returns (d : database) :
  outcome (create_table d) = Py.Returns Py.None_.
Proof. by destruct d. Qed.

Lemma main_eq (stdin : list string) (d : database) :
  main stdin d
  = match main_loop (S (length stdin)) stdin (db_after (create_table d)) with
    | Some s =>
        Some (mk_session (file s) (stdout (create_table d) ++ screen s)
                         (unread s) (ending s))
    | None => None
    end.
Proof. unfold main. by rewrite create_table_returns. Qed.

(** X1.  [main] ends on every finite input: each turn of its loop reads
    at least one line, so one turn more than there are lines always gives
    the session, and any number of turns that gives a session gives that
    same one. *)
Theorem main_ends_on_every_input (stdin : list string) (d : database) :
  (exists s, main stdin d = Some s)
  /\ (forall (fuel : nat) (s : session),
        main_loop fuel stdin (db_after (create_table d)) = Some s ->
        main stdin d
        = Some (mk_session (file s) (stdout (create_table d) ++ screen s)
                           (unread s) (ending s))).
Proof.
  rewrite main_eq. split.
  - destruct (main_loop_enough (S (length stdin)) stdin
                (db_after (create_table d))) as [s ->]; [lia | eauto].
  - intros fuel s Hs.
    destruct (main_loop_enough (S (length stdin)) stdin
                (db_after (create_table d))) as [s' Hs']; [lia|].
    rewrite Hs'.
    pose proof (main_loop_more_fuel _ (fuel + S (length stdin)) _ _ _ Hs
                  ltac:(lia)) as H1.
    pose proof (main_loop_more_fuel _ (fuel + S (length stdin)) _ _ _ Hs'
                  ltac:(lia)) as H2.
    rewrite H1 in H2. by injection H2 as ->.
Qed.

(** X2.  [main] ends in one of three ways only: it returns after the
    choice 6, and then its farewell is the last thing printed; or the
    input ends while it waits for a line, and [EOFError] escapes with
    nothing left unread; or [OverflowError] escapes from a storage call. *)
Theorem main_ends_in_three_ways (stdin : list string) (d : database) :
  match main stdin d with
  | Some s => ends_properly s
  | None => False
  end.
Proof.
  rewrite main_eq.
  destruct (main_loop_enough (S (length stdin)) stdin
              (db_after (create_table d))) as [s Hs]; [lia|].
  rewrite Hs. apply ends_properly_after. by eapply main_loop_spec.
Qed.

(** X3.  Whatever is typed, the file [main] leaves is the one that
    [create_table] followed by some storage calls leaves, where every
    [add_task] has a non-empty description and a due date that is none or
    read by [strptime], and every [complete_task] and [delete_task] an id
    above 0. *)
Theorem main_makes_checked_storage_calls (stdin : list string)
    (d : database) :
  match main stdin d with
  | Some s =>
      exists ops, file s = run (CreateTable :: ops) d /\ Forall menu_op ops
  | None => False
  end.
Proof.
  rewrite main_eq.
  destruct (main_loop_enough (S (length stdin)) stdin
              (db_after (create_table d))) as [s Hs]; [lia|].
  rewrite Hs. destruct (main_loop_spec _ _ _ _ Hs) as [(ops & Hf & Hops) _].
  exists ops. split; [|done]. by rewrite Hf.
Qed.

Lemma row_valid_step (o : op) (d : database) :
  wf d -> Forall row_valid (all_rows d) -> menu_op o \/ o = CreateTable ->
  Forall row_valid (all_rows (db_after (step o d))).
Proof.
  intros Hwf Hv Ho. destruct d as [t|].
  - destruct (step_cases o t Hwf) as (t' & -> & Hcases). simpl in *.
    destruct Hcases as [->|[(desc & due & -> & Hmax & ->)
                           |[(i & _ & _ & ->)|(i & _ & _ & ->)]]]; simpl.
    + done.
    + destruct Ho as [Ho|]; [|done]. apply Forall_app. split; [done|].
      by apply Forall_singleton.
    + apply Forall_fmap. eapply Forall_impl; [exact Hv|].
      intros r Hr. simpl. by destruct (id r =? i).
    + rewrite Forall_forall in *. intros r Hr.
      apply list_elem_of_filter in Hr as [_ Hr]. auto.
  - destruct (step_no_table o) as [->|[_ ->]]; [done | constructor].
Qed.

Lemma row_valid_run (ops : list op) (d : database) :
  wf d -> Forall row_valid (all_rows d) -> Forall menu_op ops ->
  Forall row_valid (all_rows (run ops d)).
Proof.
  unfold run. revert d.
  induction ops as [|o ops IH]; intros d Hwf Hv Hops; [done|].
  apply Forall_cons in Hops as [Ho Hops]. simpl.
  apply IH; [by apply wf_step | by apply row_valid_step; auto | done].
Qed.

(** X4.  From a well-formed file whose rows have non-empty descriptions,
    due dates that are none or read by [strptime], and [completed] 0 or 1,
    [main] leaves, whatever is typed, a file with the table in it, again
    well-formed and with such rows only. *)
Theorem main_keeps_rows_valid (stdin : list string) (d : database) :
  wf d -> Forall row_valid (all_rows d) -> completed_is_0_or_1 d ->
  match main stdin d with
  | Some s =>
      exists t, file s = Some t /\ wf_table t /\ Forall row_valid (rows t)
                /\ completed_is_0_or_1 (Some t)
  | None => False
  end.
Proof.
  intros Hwf Hv Hc. rewrite main_eq.
  destruct (main_loop_enough (S (length stdin)) stdin
              (db_after (create_table d))) as [s Hs]; [lia|].
  rewrite Hs. destruct (main_loop_spec _ _ _ _ Hs) as [(ops & Hf & Hops) _].
  cbn [file].
  pose proof (wf_step CreateTable d Hwf) as Hwf1.
  pose proof (row_valid_step CreateTable d Hwf Hv (or_intror eq_refl)) as Hv1.
  pose proof (completed_step CreateTable d Hwf Hc) as Hc1.
  cbn [step] in Hwf1, Hv1, Hc1.
  assert (exists t0, db_after (create_table d) = Some t0) as [t0 Ht0].
  { rewrite create_table_db. destruct d; eauto. }
  rewrite Ht0 in *.
  destruct (run_keeps_table ops t0 Hwf1) as [t Ht].
  exists t. rewrite Hf, Ht. split; [done|].
  pose proof (wf_run ops _ Hwf1) as Hwf2.
  pose proof (row_valid_run ops _ Hwf1 Hv1 Hops) as Hv2.
  pose proof (completed_run ops _ Hwf1 Hc1) as Hc2.
  rewrite Ht in *. done.
Qed.

Lemma main_keeps_rows_valid_witness :
  match main ["1"; " Buy milk "; "2025-13-01"; "2025-12-31"; "4"; "1"; "6"]
             fresh_file with
  | Some s =>
      exists t, file s = Some t /\ wf_table t /\ Forall row_valid (rows t)
                /\ completed_is_0_or_1 (Some t)
  | None => False
  end.
Proof.
  apply (main_keeps_rows_valid
           ["1"; " Buy milk "; "2025-13-01"; "2025-12-31"; "4"; "1"; "6"]
           fresh_file).
  - exact I.
  - constructor.
  - constructor.
Defined.

Lemma after_call_view (show_completed : bool) (d : database)
    (out rest : list string) :
  turn_file (after_call (view_tasks show_completed d) out rest) = d.
Proof.
  unfold after_call.
  destruct (outcome (view_tasks show_completed d)); simpl;
    apply view_tasks_db.
Qed.

(** X5.  A turn of the menu leaves the file as it was unless the choice
    is 1, 4 or 5: listing tasks, leaving, and a choice that is none of the
    six change nothing.  And the choice 1 with a blank description prints
    that the description cannot be empty and goes back to the menu without
    asking for a date and without adding a task. *)
Theorem menu_turn_changes_file_only_on_1_4_5 (line : string)
    (rest : list string) (d : database) :
  (Py.strip line <> "1" -> Py.strip line <> "4" -> Py.strip line <> "5" ->
   turn_file (menu_turn (line :: rest) d) = d)
  /\ (forall (line' : string) (rest' : list string),
        rest = line' :: rest' ->
        Py.strip line = "1" -> Py.is_empty (Py.strip line') = true ->
        menu_turn (line :: rest) d
        = Again d ((display_menu ++ [choice_prompt])
                   ++ [description_prompt; empty_description_msg]) rest').
Proof.
  split.
  - intros H1 H4 H5. unfold menu_turn.
    apply String.eqb_neq in H1, H4, H5. rewrite H1, H4, H5.
    destruct (String.eqb (Py.strip line) "2"); [apply after_call_view|].
    destruct (String.eqb (Py.strip line) "3"); [apply after_call_view|].
    by destruct (String.eqb (Py.strip line) "6").
  - intros line' rest' -> H1 Hempty. unfold menu_turn.
    by rewrite H1, Hempty.
Qed.

(** The turn of the choices 4 and 5 when the id typed is above the
    largest 64-bit integer. *)
Lemma menu_turn_overflow (line line' : string) (n : Z) (rest : list string)
    (t : tasks_table) :
  Py.strip line = "4" \/ Py.strip line = "5" ->
  parses_as_positive line' n -> MAX_ROWID < n ->
  exists out,
    menu_turn (line :: line' :: rest) (Some t)
    = Stop (Some t) out rest (Py.Raises Py.OverflowError).
Proof.
  intros Hchoice Hn Hbig.
  assert (~ fits_int64 n) as Hfit by (unfold fits_int64; lia).
  unfold menu_turn, with_task_id.
  destruct Hchoice as [-> | ->]; cbn [String.eqb Ascii.eqb Bool.eqb];
    rewrite (task_id_prompt_accepts _ _ _ _ Hn); cbn [result_of];
    unfold after_call.
  - rewrite (complete_task_overflow _ _ Hfit). cbn. eauto.
  - rewrite (delete_task_overflow _ _ Hfit). cbn. eauto.
Qed.

(** X6.  An id above the largest 64-bit integer, typed after the choice
    4 or 5, ends the program: the task-id prompt takes it, the storage
    call raises [OverflowError], which no handler catches, so [main] is
    left with the rest of the input unread and the file as [create_table]
    left it. *)
Theorem main_ends_on_an_id_too_large (line line' : string) (n : Z)
    (rest : list string) (d : database) :
  Py.strip line = "4" \/ Py.strip line = "5" ->
  parses_as_positive line' n -> MAX_ROWID < n ->
  match main (line :: line' :: rest) d with
  | Some s =>
      ending s = Py.Raises Py.OverflowError
      /\ file s = db_after (create_table d)
      /\ unread s = rest
  | None => False
  end.
Proof.
  intros Hchoice Hn Hbig. rewrite main_eq. cbn [main_loop].
  assert (exists t, db_after (create_table d) = Some t) as [t ->].
  { rewrite create_table_db. destruct d; eauto. }
  destruct (menu_turn_overflow line line' n rest t Hchoice Hn Hbig)
    as [out ->].
  done.
Qed.

Lemma main_ends_on_an_id_too_large_witness :
  match main ["5"; "9223372036854775808"; "6"] fresh_file with
  | Some s =>
      ending s = Py.Raises Py.OverflowError
      /\ file s = db_after (create_table fresh_file)
      /\ unread s = ["6"]
  | None => False
  end.
Proof.
  apply (main_ends_on_an_id_too_large "5" "9223372036854775808"
           9223372036854775808 ["6"] fresh_file).
  - right. reflexivity.
  - split; reflexivity.
  - reflexivity.
Defined.

End Menu.

(** ** More on the storage functions *)

Section StorageFacts.




Lemma run_without_table (ops : list op) :
  CreateTable ∉ ops ->
  run ops fresh_file = fresh_file /\ assigned_ids ops fresh_file = [].
Proof.
  unfold run, fresh_file.
  induction ops as [|o ops IH]; intros Hno; [done|].
  apply not_elem_of_cons in Hno as [Hne Hno]. simpl.
  unfold assigned_by. rewrite (no_table_no_change o) by done.
  destruct (IH Hno) as [-> ->]. done.
Qed.

(** X8.  While the table does not exist nothing is stored: along any
    calls without [create_table] the file stays without a table and no id
    is given out; [add_task] and [view_tasks] print the engine's message
    that there is no such table. *)
Theorem nothing_is_stored_without_the_table (ops : list op) :
  CreateTable ∉ ops ->
  run ops fresh_file = fresh_file
  /\ assigned_ids ops fresh_file = []
  /\ (forall description due_date,
        add_task description due_date fresh_file
        = mk_effect fresh_file ["Error adding task: no such table: tasks"]
                    (Py.Returns Py.None_))
  /\ (forall show_completed,
        view_tasks show_completed fresh_file
        = mk_effect fresh_file ["Error viewing tasks: no such table: tasks"]
                    (Py.Returns Py.None_)).
Proof.
  intros Hno. destruct (run_without_table ops Hno) as [-> ->].
  repeat split. by intros [].
Qed.

Lemma nothing_is_stored_without_the_table_witness :
  run [AddTask "a" None; CompleteTask 1; ViewTasks true; DeleteTask 1]
      fresh_file = fresh_file
  /\ assigned_ids [AddTask "a" None; CompleteTask 1; ViewTasks true;
                   DeleteTask 1] fresh_file = [].
Proof.
  destruct (nothing_is_stored_without_the_table
              [AddTask "a" None; CompleteTask 1; ViewTasks true; DeleteTask 1])
    as (H1 & H2 & _).
  - intros H. repeat (apply elem_of_cons in H as [H|H]; [discriminate H|]).
    inversion H.
  - by split.
Defined.

(** [create_table] can be called at every start: after it the table
    exists, with the rows and the AUTOINCREMENT entry the file had (none
    and 0 when there was no table), and a second call changes nothing. *)
Lemma create_table_keeps_what_is_stored (d : database) :
  exists t,
    db_after (create_table d) = Some t
    /\ rows t = all_rows d /\ seq t = counter d
    /\ create_table (Some t)
       = mk_effect (Some t) ["Database table 'tasks' ensured."]
                   (Py.Returns Py.None_).
Proof. destruct d as [t|]; eexists; repeat split. Qed.

Lemma update_completed_twice (i : Z) (l : list task) :
  (fun r => if id r =? i then set_completed 1 r else r)
    <$> ((fun r => if id r =? i then set_completed 1 r else r) <$> l)
  = (fun r => if id r =? i then set_completed 1 r else r) <$> l.
Proof.
  induction l as [|r l IH]; csimpl; [done|]. rewrite IH. f_equal.
  destruct (id r =? i) eqn:E; [|by rewrite E]. simpl. by rewrite E.
Qed.

Lemma matching_by_ids (i : Z) (t t' : tasks_table) :
  id <$> rows t' = id <$> rows t -> matching i t' = matching i t.
Proof.
  unfold matching. destruct t as [l s], t' as [l' s']. cbn [rows].
  revert l'. induction l as [|r l IH]; intros [|r' l'] H; try done.
  csimpl in H. injection H as Hid Hl. rewrite !filter_cons.
  specialize (IH _ Hl). rewrite Hid.
  destruct (decide (id r = i)); simpl; lia.
Qed.

(** X9.  Completing a task a second time does and prints exactly what
    the first call did: the file after the first call is left as it is,
    with the same message and the same result, whether the id had a row,
    had none, or did not fit. *)
Theorem complete_task_twice (task_id : Z) (d : database) :
  complete_task task_id (db_after (complete_task task_id d))
  = mk_effect (db_after (complete_task task_id d))
              (stdout (complete_task task_id d))
              (outcome (complete_task task_id d)).
Proof.
  destruct d as [t|]; [|done].
  destruct (decide (MIN_INT64 <= task_id <= MAX_ROWID)) as [Hfit|Hfit].
  2: { rewrite (complete_task_overflow _ t Hfit). cbn [db_after stdout outcome].
       by rewrite (complete_task_overflow _ t Hfit). }
  rewrite (complete_task_eq _ t Hfit).
  destruct (0 <? matching task_id t) eqn:E; cbn [db_after stdout outcome].
  - rewrite (complete_task_eq _ _ Hfit).
    rewrite (matching_by_ids task_id t) by apply ids_update_completed.
    rewrite E. cbn [rows seq]. by rewrite update_completed_twice.
  - by rewrite (complete_task_eq _ _ Hfit), E.
Qed.

(** X10.  What [complete_task] and [delete_task] report depends on the
    presence of a row with the id and on nothing else: each prints its
    message of success when some row has the id, and its message that
    there is no such task when none has. *)
Theorem reports_follow_the_row (task_id : Z) (t : tasks_table) :
  fits_int64 task_id ->
  (has_row task_id t ->
   stdout (complete_task task_id (Some t)) = [completed_msg task_id]
   /\ stdout (delete_task task_id (Some t)) = [deleted_msg task_id])
  /\ (~ has_row task_id t ->
      stdout (complete_task task_id (Some t)) = [not_completed_msg task_id]
      /\ stdout (delete_task task_id (Some t)) = [not_found_msg task_id]).
Proof.
  intros Hfit.
  rewrite (complete_task_eq _ _ Hfit), (delete_task_eq _ _ Hfit). split.
  - intros Hrow%matching_pos%Z.ltb_lt. by rewrite Hrow.
  - intros Hno%matching_none. by rewrite Hno.
Qed.

Lemma reports_follow_the_row_witness :
  stdout (complete_task 1 (Some (mk_table [mk_task 1 "a" None (Some 1)] 1)))
  = ["Task 1 marked as completed!"]
  /\ stdout (delete_task 2 (Some (mk_table [mk_task 1 "a" None (Some 1)] 1)))
     = ["Task 2 not found."].
Proof.
  assert (fits_int64 1) as H1 by (split; discriminate).
  assert (fits_int64 2) as H2 by (split; discriminate).
  split.
  - apply (reports_follow_the_row 1 _ H1). apply matching_pos. reflexivity.
  - apply (reports_follow_the_row 2 _ H2). intros H%matching_pos.
    discriminate H.
Defined.




End StorageFacts.

(** ** More on listing *)

Section ListingFacts.

(** The rows a listing fetches: all rows, or the pending ones. *)
Lemma fetch_tasks_elem (show_completed : bool) (t : tasks_table) :
  exists l,
    fetch_tasks show_completed (Some t) = Ok l
    /\ forall r, r ∈ l <-> r ∈ rows t /\ (show_completed = false -> is_pending r).
Proof.
  destruct show_completed; simpl; eexists; (split; [done|]); intros r;
    rewrite order_by_perm.
  - split; [by intros ?; split | by intros []].
  - rewrite list_elem_of_filter. unfold is_pending. split.
    + intros []. by split.
    + intros [? H]. split; [by apply H | done].
Qed.



(** X13.  A task that was completed leaves the list of pending tasks
    and shows as completed in the list of all tasks, and the other tasks
    are listed as before: after [complete_task] on the id of a row, the
    pending listing fetches no row with that id, the full listing fetches
    that row with [completed] 1, and a row with another id is fetched by
    either listing exactly when it was before. *)
Theorem completed_task_leaves_pending (t : tasks_table) (r : task) :
  wf_table t -> r ∈ rows t ->
  exists lp la,
    fetch_tasks false (db_after (complete_task (id r) (Some t))) = Ok lp
    /\ fetch_tasks true (db_after (complete_task (id r) (Some t))) = Ok la
    /\ Forall (fun x => id x <> id r) lp
    /\ set_completed 1 r ∈ la
    /\ (forall x, id x <> id r ->
          (x ∈ lp <-> x ∈ rows t /\ is_pending x) /\ (x ∈ la <-> x ∈ rows t)).
Proof.
  intros Hwf Hr.
  assert (fits_int64 (id r)) as Hfit.
  { destruct Hwf as (_ & Hall & Hseq). rewrite Forall_forall in Hall.
    specialize (Hall r Hr). unfold fits_int64, MIN_INT64. lia. }
  assert (has_row (id r) t) as Hrow by (by exists r).
  rewrite (complete_task_eq _ _ Hfit).
  apply matching_pos, Z.ltb_lt in Hrow. rewrite Hrow. cbn [db_after].
  set (f := fun x => if id x =? id r then set_completed 1 x else x).
  destruct (fetch_tasks_elem false (mk_table (f <$> rows t) (seq t)))
    as (lp & Hlp & Hmp).
  destruct (fetch_tasks_elem true (mk_table (f <$> rows t) (seq t)))
    as (la & Hla & Hma).
  cbn [rows] in Hmp, Hma. exists lp, la. split; [done|]. split; [done|].
  assert (forall x, id (f x) = id x) as Hid.
  { intros x. unfold f. by destruct (id x =? id r). }
  assert (forall x, id x <> id r -> x ∈ f <$> rows t <-> x ∈ rows t) as Hother.
  { intros x Hne. rewrite list_elem_of_fmap. split.
    - intros (y & -> & Hy). rewrite Hid in Hne. unfold f.
      apply Z.eqb_neq in Hne. by rewrite Hne.
    - intros Hx. exists x. split; [|done]. unfold f.
      apply Z.eqb_neq in Hne. by rewrite Hne. }
  split; [|split].
  - apply Forall_forall. intros x [Hx Hp]%Hmp Heq.
    apply list_elem_of_fmap in Hx as (y & -> & Hy). rewrite Hid in Heq.
    specialize (Hp eq_refl). unfold is_pending, f in Hp.
    apply Z.eqb_eq in Heq. rewrite Heq in Hp. discriminate Hp.
  - apply Hma. split; [|done]. apply list_elem_of_fmap. exists r.
    split; [|done]. unfold f. by rewrite Z.eqb_refl.
  - intros x Hne. rewrite Hmp, Hma, (Hother x Hne). split.
    + split; [intros [? H]; split; [done | by apply H] | by intros []].
    + split; [by intros [] | by intros ?; split].
Qed.

Lemma completed_task_leaves_pending_witness :
  exists lp la,
    fetch_tasks false
      (db_after (complete_task 1
                   (Some (mk_table [mk_task 1 "a" None (Some 0)] 1)))) = Ok lp
    /\ fetch_tasks true
         (db_after (complete_task 1
                      (Some (mk_table [mk_task 1 "a" None (Some 0)] 1))))
       = Ok la
    /\ Forall (fun x => id x <> 1) lp
    /\ mk_task 1 "a" None (Some 1) ∈ la.
Proof.
  destruct (completed_task_leaves_pending
              (mk_table [mk_task 1 "a" None (Some 0)] 1)
              (mk_task 1 "a" None (Some 0)))
    as (lp & la & H1 & H2 & H3 & H4 & _).
  - exact (wf_run [AddTask "a" None] empty_store wf_empty_table).
  - by left.
  - exists lp, la. by repeat split.
Defined.

Lemma ordered_both_ways {A : Type} (cmp : A -> A -> comparison) (x y : A) :
  comparator cmp -> ordered cmp x y -> ordered cmp y x -> cmp x y = Eq.
Proof.
  intros Hc Hxy Hyx. unfold ordered in *. rewrite (cmp_opp cmp Hc y x) in Hyx.
  by destruct (cmp x y).
Qed.

Lemma by_due_date_id_Eq (x y : task) : by_due_date_id x y = Eq -> id x = id y.
Proof.
  unfold by_due_date_id, then_by.
  destruct (compare_nulls_first _ _ _); [|done..]. apply Z.compare_eq.
Qed.

Lemma by_completed_due_date_id_Eq (x y : task) :
  by_completed_due_date_id x y = Eq -> id x = id y.
Proof.
  unfold by_completed_due_date_id, then_by.
  destruct (compare_nulls_first _ _ _); [|done..]. apply by_due_date_id_Eq.
Qed.

Lemma unique_by_id (l : list task) (x y : task) :
  NoDup (id <$> l) -> x ∈ l -> y ∈ l -> id x = id y -> x = y.
Proof.
  induction l as [|a l IH]; intros Hnd Hx Hy Heq; [by inversion Hx|].
  rewrite fmap_cons in Hnd. apply NoDup_cons in Hnd as [Ha Hnd].
  apply elem_of_cons in Hx as [->|Hx], Hy as [->|Hy]; [done| | |by apply IH].
  - destruct Ha. rewrite Heq. by apply list_elem_of_fmap_2.
  - destruct Ha. rewrite <- Heq. by apply list_elem_of_fmap_2.
Qed.

Lemma order_by_unique (cmp : task -> task -> comparison) (l1 l2 : list task) :
  comparator cmp -> (forall x y, cmp x y = Eq -> id x = id y) ->
  NoDup (id <$> l1) -> l1 ≡ₚ l2 -> order_by cmp l1 = order_by cmp l2.
Proof.
  intros Hc Heq Hnd Hperm.
  apply (StronglySorted_unique_strong (ordered cmp)).
  - intros x y Hx Hy Hxy Hyx. rewrite order_by_perm in Hx, Hy.
    rewrite <- Hperm in Hy.
    apply (unique_by_id l1); [done..|].
    by apply Heq, ordered_both_ways.
  - by apply order_by_sorted.
  - by apply order_by_sorted.
  - by rewrite !order_by_perm.
Qed.

(** X14.  With a unique primary key, what a listing fetches, and so what
    it prints, is fixed by which rows the table holds: two tables with the
    same rows in whatever order are listed alike.  The order of a listing
    owes nothing to the order of storage or to the sorting method. *)
Theorem listing_ignores_storage_order (show_completed : bool)
    (t t' : tasks_table) :
  NoDup (id <$> rows t) -> rows t ≡ₚ rows t' ->
  fetch_tasks show_completed (Some t) = fetch_tasks show_completed (Some t')
  /\ stdout (view_tasks show_completed (Some t))
     = stdout (view_tasks show_completed (Some t')).
Proof.
  intros Hnd Hperm.
  assert (fetch_tasks show_completed (Some t)
          = fetch_tasks show_completed (Some t')) as Heq.
  { destruct show_completed; simpl; f_equal.
    - apply order_by_unique;
        [apply comparator_by_completed_due_date_id
        |apply by_completed_due_date_id_Eq | done..].
    - apply order_by_unique;
        [apply comparator_by_due_date_id | apply by_due_date_id_Eq | |].
      + eapply sublist_NoDup; [exact Hnd|].
        apply fmap_sublist, sublist_filter.
      + by rewrite Hperm. }
  split; [done|].
  destruct (fetch_tasks_elem show_completed t) as (l & Hl & _).
  rewrite (listing_spec show_completed t l Hl).
  rewrite Heq in Hl. by rewrite (listing_spec show_completed t' l Hl).
Qed.

Lemma listing_ignores_storage_order_witness :
  fetch_tasks true
    (Some (mk_table [mk_task 1 "a" None (Some 1);
                     mk_task 2 "b" (Some "2025-01-01") (Some 0)] 2))
  = fetch_tasks true
      (Some (mk_table [mk_task 2 "b" (Some "2025-01-01") (Some 0);
                       mk_task 1 "a" None (Some 1)] 2)).
Proof.
  apply (listing_ignores_storage_order true
           (mk_table [mk_task 1 "a" None (Some 1);
                      mk_task 2 "b" (Some "2025-01-01") (Some 0)] 2)
           (mk_table [mk_task 2 "b" (Some "2025-01-01") (Some 0);
                      mk_task 1 "a" None (Some 1)] 2)).
  - repeat constructor; intros H;
      repeat (apply elem_of_cons in H as [H|H]; [discriminate H|]);
      inversion H.
  - apply Permutation_swap.
Defined.

End ListingFacts.

(** ** More on the prompts *)

Section PromptFacts.

(** X15.  The date prompt returns for the first line that is blank or
    that [strptime] reads, and for no other: when it returns, the lines
    before the one it took were all turned down, each with the error
    message and a new prompt, the due date is none or a non-empty string
    that [strptime] reads, and the lines after are left unread; when it
    raises, it is [EOFError], every line was turned down and none is
    left. *)
Theorem date_prompt_returns_first_taken_line (prompt : string)
    (stdin : list string) :
  match result_of (get_valid_date_input prompt stdin) with
  | Py.Returns due =>
      exists rejected accepted,
        stdin = rejected ++ accepted
                  :: stdin_left (get_valid_date_input prompt stdin)
        /\ Forall (fun line => date_taken line = None) rejected
        /\ date_taken accepted = Some due
        /\ printed (get_valid_date_input prompt stdin)
           = date_prompts prompt rejected
        /\ due_date_ok due
  | Py.Raises ex =>
      ex = Py.EOFError
      /\ stdin_left (get_valid_date_input prompt stdin) = []
      /\ Forall (fun line => date_taken line = None) stdin
      /\ printed (get_valid_date_input prompt stdin)
         = date_prompts prompt stdin
  end.
Proof.
  induction stdin as [|line stdin IH]; [by repeat split|].
  rewrite date_prompt_step. destruct (date_taken line) as [due|] eqn:E.
  - cbn [result_of stdin_left printed]. exists [], line.
    repeat split; [constructor | done | by eapply date_taken_ok].
  - cbn [result_of stdin_left printed].
    destruct (result_of (get_valid_date_input prompt stdin)) as [due|ex].
    + destruct IH as (rejected & accepted & Hin & Hrej & Hacc & Hpr & Hok).
      exists (line :: rejected), accepted. rewrite Hpr.
      repeat split; [by rewrite Hin at 1 | by constructor | done..].
    + destruct IH as (-> & Hleft & Hrej & Hpr). rewrite Hpr.
      repeat split; [done | by constructor].
Qed.

(** X16.  The date prompt takes every line of the form YYYY-MM-DD, four
    digits, two and two, that names a date of the calendar, at once and
    as it is: it returns that very string and leaves the rest of the
    input. *)
Theorem date_prompt_takes_strict_dates (prompt s : string)
    (rest : list string) :
  is_YYYY_MM_DD s = true ->
  get_valid_date_input prompt (s :: rest)
  = mk_io (Py.Returns (Some s)) rest [prompt].
Proof.
  intros H. destruct (strptime_YYYY_MM_DD s H) as [Hstrip [ymd Hparse]].
  rewrite date_prompt_step. unfold date_taken. rewrite Hstrip, Hparse.
  destruct s; [discriminate H | done].
Qed.

Lemma date_prompt_takes_strict_dates_witness :
  get_valid_date_input due_date_prompt ["2024-02-29"; "6"]
  = mk_io (Py.Returns (Some "2024-02-29")) ["6"] [due_date_prompt].
Proof.
  exact (date_prompt_takes_strict_dates due_date_prompt "2024-02-29" ["6"]
           eq_refl).
Defined.

(** X17.  The task-id prompt never returns an id that is not above 0,
    whatever the input: when it returns [n], the line it took reads as
    the integer [n] above 0, the lines before it do not read as one and
    got a message and a new prompt each, and the lines after it are left
    unread; when it raises, it is [EOFError], no line read as a positive
    integer and none is left. *)
Theorem task_id_prompt_returns_first_positive (prompt : string)
    (stdin : list string) :
  match result_of (get_valid_task_id_input prompt stdin) with
  | Py.Returns n =>
      0 < n
      /\ exists rejected accepted,
           stdin = rejected ++ accepted
                     :: stdin_left (get_valid_task_id_input prompt stdin)
           /\ Forall (fun line => forall m, ~ parses_as_positive line m)
                     rejected
           /\ parses_as_positive accepted n
           /\ printed (get_valid_task_id_input prompt stdin)
              = id_prompts prompt rejected
  | Py.Raises ex =>
      ex = Py.EOFError
      /\ stdin_left (get_valid_task_id_input prompt stdin) = []
      /\ Forall (fun line => forall m, ~ parses_as_positive line m) stdin
      /\ printed (get_valid_task_id_input prompt stdin)
         = id_prompts prompt stdin
  end.
Proof.
  induction stdin as [|line stdin IH]; [by repeat split|].
  destruct (Py.int (Py.strip line)) as [n|] eqn:E.
  - destruct (decide (0 < n)) as [Hpos|Hneg].
    + rewrite (task_id_prompt_accepts prompt line stdin n) by done.
      cbn [result_of stdin_left printed]. split; [done|].
      exists [], line. repeat split; [constructor | done..].
    + assert (forall m, ~ parses_as_positive line m) as Hno.
      { intros m [Hm Hp]. rewrite E in Hm. injection Hm as <-. done. }
      rewrite (task_id_prompt_rejects _ _ _ Hno).
      cbn [result_of stdin_left printed].
      destruct (result_of (get_valid_task_id_input prompt stdin)) as [k|ex].
      * destruct IH as (Hk & rejected & accepted & Hin & Hrej & Hacc & Hpr).
        split; [done|]. exists (line :: rejected), accepted. rewrite Hpr.
        repeat split; [by rewrite Hin at 1 | by constructor | apply Hacc..].
      * destruct IH as (-> & Hleft & Hrej & Hpr). rewrite Hpr.
        repeat split; [done | by constructor].
  - assert (forall m, ~ parses_as_positive line m) as Hno.
    { intros m [Hm _]. congruence. }
    rewrite (task_id_prompt_rejects _ _ _ Hno).
    cbn [result_of stdin_left printed].
    destruct (result_of (get_valid_task_id_input prompt stdin)) as [k|ex].
    + destruct IH as (Hk & rejected & accepted & Hin & Hrej & Hacc & Hpr).
      split; [done|]. exists (line :: rejected), accepted. rewrite Hpr.
      repeat split; [by rewrite Hin at 1 | by constructor | apply Hacc..].
    + destruct IH as (-> & Hleft & Hrej & Hpr). rewrite Hpr.
      repeat split; [done | by constructor].
Qed.

End PromptFacts.
